(** * Slideshow video generator: timeline, crossfade, Ken Burns geometry
      and frame scheduler of [useVideoGenerator]

    Shallow embedding of the hook [useVideoGenerator] (functions
    [generateVideo], [drawFrame], [applyKenBurnsAndDraw], [cleanup],
    [getSupportedMimeType]), of the types of [types.ts] and of the image
    list handlers of [App.tsx].

    Numbers.  The source computes with JavaScript numbers.  They are
    embedded as exact rationals [Q]: [+ - * /] are the field operations
    and comparisons are the rational order, so that every definition
    below evaluates on concrete inputs.  Rounding of IEEE doubles is not
    modelled; statements of the form [a == b] are equalities of the exact
    values, and no statement depends on the accumulated value of the
    scheduler's clock.  [x / 0] is [0] in [Q] whereas it is [Infinity] or [NaN] in
    the source: theorems whose content depends on a quotient carry the
    hypotheses that make the divisor non-zero (or it is shown that the
    divisions are not reached, see [ResolveFacts.resolve_bound]). *)

From Stdlib Require Import QArith Qabs ZArith List Bool String Lia Lqa.
Import ListNotations.

Open Scope Q_scope.

(** ** Comparisons and [Math.min] on numbers *)

Module Num.

(** [x < y] as the boolean the source branches on. *)
Definition ltb (x y : Q) : bool := negb (Qle_bool y x).

(** [x >= y]. *)
Definition geb (x y : Q) : bool := Qle_bool y x.

(** [x > y]. *)
Definition gtb (x y : Q) : bool := ltb y x.

(** [Math.min(a, b)]. *)
Definition min (a b : Q) : Q := if Qle_bool a b then a else b.

End Num.

(** ** Data model ([types.ts]) *)

Inductive PanDirection : Set :=
| random | zoom_in | zoom_out | pan_left | pan_right | pan_up | pan_down.

Inductive ImageFit : Set := cover | contain.

Record KenBurns : Set := mkKenBurns {
  enabled : bool;
  zoomFactor : Q;
  panDirection : PanDirection
}.

Record EffectSettings : Set := mkEffectSettings {
  durationPerImage : Q;      (* seconds *)
  transitionDuration : Q;    (* seconds *)
  kenBurns : KenBurns;
  videoWidth : Q;
  videoHeight : Q;
  imageFit : ImageFit
}.

(** [UploadedImage]; the [file] handle is not read by the generator.  The
    decoded [HTMLImageElement] exposes the same [width] and [height]. *)
Record UploadedImage : Set := mkUploadedImage {
  id : string;
  dataUrl : string;
  width : Q;
  height : Q
}.

Definition PAN_DIRECTIONS : list PanDirection :=
  [random; zoom_in; zoom_out; pan_left; pan_right; pan_up; pan_down].

Definition PanDirection_eqb (a b : PanDirection) : bool :=
  match a, b with
  | random, random | zoom_in, zoom_in | zoom_out, zoom_out
  | pan_left, pan_left | pan_right, pan_right
  | pan_up, pan_up | pan_down, pan_down => true
  | _, _ => false
  end.

(** Number of an index or of a length. *)
Definition ofnat (n : nat) : Q := inject_Z (Z.of_nat n).

(** ** Timeline: total duration and the segment scan of [drawFrame] *)

Module Timeline.

Section WithSettings.

Variable settings : EffectSettings.
(** [images.length] *)
Variable len : nat.

(** [totalDuration] of [generateVideo]:
    [images.length * durationPerImage], plus
    [(images.length - 1) * transitionDuration] when [images.length > 1]. *)
Definition totalDuration : Q :=
  let total := ofnat len * durationPerImage settings in
  if (1 <? len)%nat
  then total + (ofnat len - 1) * transitionDuration settings
  else total.

(** [imageDisplayStartTime] of loop index [i]. *)
Definition imageDisplayStartTime (i : nat) : Q :=
  ofnat i * durationPerImage settings
  - (if (0 <? i)%nat then transitionDuration settings else 0).

(** [imageDisplayEndTime] of loop index [i]; the test
    [i < images.length - 1] is on integers ([images.length - 1] is [-1]
    for an empty list). *)
Definition imageDisplayEndTime (i : nat) : Q :=
  imageDisplayStartTime i + durationPerImage settings
  + (if (Z.of_nat i <? Z.of_nat len - 1)%Z
     then transitionDuration settings else 0).

(** The test of the loop body:
    [currentTimeInVideo >= start && currentTimeInVideo < end]. *)
Definition inWindow (t : Q) (i : nat) : bool :=
  Num.geb t (imageDisplayStartTime i) && Num.ltb t (imageDisplayEndTime i).

(** The [for] loop from index [i] with [k] iterations left; the result
    is the pair [(currentImageIndex, timeIntoCurrentImage)] assigned
    before [break], or [None] when the loop runs to its end. *)
Fixpoint scanFrom (t : Q) (k i : nat) : option (nat * Q) :=
  match k with
  | O => None
  | S k' =>
      if inWindow t i then Some (i, t - imageDisplayStartTime i)
      else scanFrom t k' (S i)
  end.

Definition scan (t : Q) : option (nat * Q) := scanFrom t len 0.

(** State of [currentImageIndex] and [timeIntoCurrentImage] after the
    loop and the two [if]s that follow it. *)
Inductive Resolved : Set :=
| EndOfTimeline
| FrameAt (currentImageIndex : Z) (timeIntoCurrentImage : Q).

Definition resolve (t : Q) : Resolved :=
  match scan t with
  | Some (i, tm) => FrameAt (Z.of_nat i) tm
  | None =>
      if Num.geb t totalDuration then EndOfTimeline
      else FrameAt (Z.of_nat len - 1) (durationPerImage settings)
  end.

End WithSettings.

End Timeline.

(** ** Geometry: [applyKenBurnsAndDraw] *)

Module Geometry.

(** The eight numeric arguments of [ctx.drawImage]. *)
Record DrawImageArgs : Set := mkDrawImageArgs {
  sx : Q; sy : Q; sWidth : Q; sHeight : Q;
  dx : Q; dy : Q; dWidth : Q; dHeight : Q
}.

(** Source and destination rectangles after the [imageFit] block. *)
Definition fitRect (imgW imgH : Q) (fit : ImageFit)
    (canvasWidth canvasHeight : Q) : DrawImageArgs :=
  let canvasAspect := canvasWidth / canvasHeight in
  let imgAspect := imgW / imgH in
  match fit with
  | cover =>
      if Num.gtb imgAspect canvasAspect then
        let sHeight' := imgH in
        let sWidth' := sHeight' * canvasAspect in
        mkDrawImageArgs ((imgW - sWidth') / 2) 0 sWidth' sHeight'
                        0 0 canvasWidth canvasHeight
      else
        let sWidth' := imgW in
        let sHeight' := sWidth' / canvasAspect in
        mkDrawImageArgs 0 ((imgH - sHeight') / 2) sWidth' sHeight'
                        0 0 canvasWidth canvasHeight
  | contain =>
      if Num.gtb imgAspect canvasAspect then
        let dWidth' := canvasWidth in
        let dHeight' := dWidth' / imgAspect in
        mkDrawImageArgs 0 0 imgW imgH
                        0 ((canvasHeight - dHeight') / 2) dWidth' dHeight'
      else
        let dHeight' := canvasHeight in
        let dWidth' := dHeight' * imgAspect in
        mkDrawImageArgs 0 0 imgW imgH
                        ((canvasWidth - dWidth') / 2) 0 dWidth' dHeight'
  end.

(** [zoom] of the Ken Burns block; the source does not read
    [panDirection] here. *)
Definition zoom (kb : KenBurns) (progressInImage : Q) : Q :=
  1 + (zoomFactor kb - 1) * progressInImage.

(** [maxPanOffset], from the source rectangle's width for both axes. *)
Definition maxPanOffset (sWidth0 : Q) : Q := (1 # 10) * sWidth0.

(** The guard of the directional block. *)
Definition directional (d : PanDirection) : bool :=
  negb (PanDirection_eqb d random) && negb (PanDirection_eqb d zoom_in)
  && negb (PanDirection_eqb d zoom_out).

(** [offsetX] after the four [if]s of the directional block. *)
Definition offsetX (kb : KenBurns) (sWidth0 progressInImage : Q) : Q :=
  if directional (panDirection kb) then
    let o := 0 in
    let o := if PanDirection_eqb (panDirection kb) pan_left
             then - maxPanOffset sWidth0 * progressInImage else o in
    let o := if PanDirection_eqb (panDirection kb) pan_right
             then maxPanOffset sWidth0 * progressInImage else o in
    o
  else 0.

(** [offsetY] after the four [if]s of the directional block. *)
Definition offsetY (kb : KenBurns) (sWidth0 progressInImage : Q) : Q :=
  if directional (panDirection kb) then
    let o := 0 in
    let o := if PanDirection_eqb (panDirection kb) pan_up
             then - maxPanOffset sWidth0 * progressInImage else o in
    let o := if PanDirection_eqb (panDirection kb) pan_down
             then maxPanOffset sWidth0 * progressInImage else o in
    o
  else 0.

(** The Ken Burns block applied to the rectangles [r] of the fit. *)
Definition kenBurnsRect (kb : KenBurns) (progressInImage : Q)
    (r : DrawImageArgs) : DrawImageArgs :=
  if enabled kb then
    let z := zoom kb progressInImage in
    let newSWidth := sWidth r / z in
    let newSHeight := sHeight r / z in
    let panX := (sWidth r - newSWidth) / 2 in
    let panY := (sHeight r - newSHeight) / 2 in
    mkDrawImageArgs
      (sx r + panX + offsetX kb (sWidth r) progressInImage)
      (sy r + panY + offsetY kb (sWidth r) progressInImage)
      newSWidth newSHeight
      (dx r) (dy r) (dWidth r) (dHeight r)
  else r.

(** [applyKenBurnsAndDraw]: the arguments passed to [ctx.drawImage]. *)
Definition applyKenBurnsAndDraw (img : UploadedImage)
    (currentSettings : EffectSettings) (progressInImage : Q)
    (canvasWidth canvasHeight : Q) : DrawImageArgs :=
  kenBurnsRect (kenBurns currentSettings) progressInImage
    (fitRect (width img) (height img) (imageFit currentSettings)
             canvasWidth canvasHeight).

(** Rectangle [x, x+w] x [y, y+h] inside [X, X+W] x [Y, Y+H]. *)
Definition inside (x y w h X Y W H : Q) : Prop :=
  X <= x /\ Y <= y /\ x + w <= X + W /\ y + h <= Y + H.

(** The source rectangle of a draw call lies within the image. *)
Definition sourceInImage (img : UploadedImage) (r : DrawImageArgs) : Prop :=
  inside (sx r) (sy r) (sWidth r) (sHeight r) 0 0 (width img) (height img).

(** Decision of [sourceInImage]. *)
Definition sourceInImageb (img : UploadedImage) (r : DrawImageArgs) : bool :=
  Qle_bool 0 (sx r) && Qle_bool 0 (sy r)
  && Qle_bool (sx r + sWidth r) (0 + width img)
  && Qle_bool (sy r + sHeight r) (0 + height img).

End Geometry.

(** ** Compositor: the drawing part of [drawFrame] *)

Module Compositor.

(** Calls on the 2D context that reach the canvas. *)
Inductive CanvasOp : Set :=
| FillRect (x y w h : Q)
| DrawImage (image : UploadedImage) (globalAlpha : Q)
            (args : Geometry.DrawImageArgs).

Section WithInputs.

Variable images : list UploadedImage.
Variable settings : EffectSettings.

(** [imageElements[i]]; [None] is [undefined]. *)
Definition imageElement (i : Z) : option UploadedImage :=
  if (i <? 0)%Z then None else nth_error images (Z.to_nat i).

(** [transitionProgress]. *)
Definition transitionProgress (currentImageIndex : Z)
    (timeIntoCurrentImage : Q) : Q :=
  if Num.gtb timeIntoCurrentImage (durationPerImage settings) then
    (timeIntoCurrentImage - durationPerImage settings)
    / transitionDuration settings
  else if Num.ltb timeIntoCurrentImage (transitionDuration settings)
          && (0 <? currentImageIndex)%Z then
    timeIntoCurrentImage / transitionDuration settings
  else 1.

(** Guard "Fading out current", also the guard of the next image's draw. *)
Definition fadingOut (currentImageIndex : Z) (timeIntoCurrentImage : Q)
    : bool :=
  Num.gtb timeIntoCurrentImage (durationPerImage settings)
  && (currentImageIndex <? Z.of_nat (List.length images) - 1)%Z.

(** Guard "Fading in current". *)
Definition fadingIn (currentImageIndex : Z) (timeIntoCurrentImage : Q)
    : bool :=
  Num.ltb timeIntoCurrentImage (transitionDuration settings)
  && (0 <? currentImageIndex)%Z.

(** [alpha] of the current image. *)
Definition alpha (currentImageIndex : Z) (timeIntoCurrentImage : Q) : Q :=
  let tp := transitionProgress currentImageIndex timeIntoCurrentImage in
  if fadingOut currentImageIndex timeIntoCurrentImage then
    1 - Num.min 1 tp
  else if fadingIn currentImageIndex timeIntoCurrentImage then
    Num.min 1 tp
  else 1.

(** [globalAlpha] of the next image's draw. *)
Definition nextAlpha (currentImageIndex : Z) (timeIntoCurrentImage : Q)
    : Q :=
  Num.min 1 (transitionProgress currentImageIndex timeIntoCurrentImage).

(** [progressInImage]. *)
Definition progressInImage (timeIntoCurrentImage : Q) : Q :=
  Num.min 1 (timeIntoCurrentImage / durationPerImage settings).

(** Canvas operations of one frame, in paint order.  [None] when an
    element of [imageElements] is [undefined] (reading its [width]
    throws). *)
Definition compose (currentImageIndex : Z) (timeIntoCurrentImage : Q)
    : option (list CanvasOp) :=
  let cw := videoWidth settings in
  let ch := videoHeight settings in
  match imageElement currentImageIndex with
  | None => None
  | Some img =>
      let current :=
        DrawImage img (alpha currentImageIndex timeIntoCurrentImage)
          (Geometry.applyKenBurnsAndDraw img settings
             (progressInImage timeIntoCurrentImage) cw ch) in
      if fadingOut currentImageIndex timeIntoCurrentImage then
        match imageElement (currentImageIndex + 1) with
        | None => None
        | Some nextImg =>
            Some [FillRect 0 0 cw ch; current;
                  DrawImage nextImg
                    (nextAlpha currentImageIndex timeIntoCurrentImage)
                    (Geometry.applyKenBurnsAndDraw nextImg settings 0 cw ch)]
        end
      else Some [FillRect 0 0 cw ch; current]
  end.

End WithInputs.

End Compositor.

(** ** Frame scheduler: the [requestAnimationFrame] loop of [drawFrame] *)

Module Scheduler.

(** [MediaRecorder.state]. *)
Inductive RecorderState : Set := inactive | recording | paused.

Inductive Task : Set :=
| Idle
| Initializing
| EncodingFrame (imageNumber : Z) (imageCount : nat)
| VideoGenerated.

Record VideoGenerationProgress : Set := mkProgress {
  percentage : Q;
  currentTask : Task
}.

(** What [drawFrame] reads and writes between two callbacks.  [frames]
    lists the callbacks that reached [overallTime += frameDuration],
    with what each painted; a callback that returns early is not
    listed. *)
Record Session : Set := mkSession {
  overallTime : Q;                        (* milliseconds *)
  recorder : option RecorderState;        (* [mediaRecorderRef.current] *)
  framePending : bool;                    (* a callback is queued *)
  frames : list (list Compositor.CanvasOp); (* newest first *)
  progress : VideoGenerationProgress
}.

(** [const frameDuration = 1000 / 30]. *)
Definition frameDuration : Q := 1000 / 30.

(** [if (ref.current && ref.current.state === "recording") stop()]. *)
Definition stopRecorder (r : option RecorderState) : option RecorderState :=
  match r with
  | Some recording => Some inactive
  | _ => r
  end.

Section WithInputs.

Variable images : list UploadedImage.
Variable settings : EffectSettings.

Definition totalDuration : Q :=
  Timeline.totalDuration settings (List.length images).

(** One callback of [requestAnimationFrame].  [timestamp] is the
    argument the host passes to the callback; [drawFrame] declares no
    parameter and does not read it.  [overallTime] is the exact sum of
    the steps: the source adds the binary64 constant nearest to
    [1000 / 30] with rounding, so after many callbacks its clock is
    off the exact sum by rounding errors and the callback at which the
    loop stops can be one later (one image with the default settings:
    151 callbacks against 150 for the exact sum).  Nothing below states
    the value of the clock after several callbacks or the number of
    callbacks of a run. *)
Definition drawFrame (timestamp : Q) (st : Session) : Session :=
  match recorder st with
  | Some recording =>
      let currentTimeInVideo := overallTime st / 1000 in
      match Timeline.resolve settings (List.length images) currentTimeInVideo with
      | Timeline.EndOfTimeline =>
          mkSession (overallTime st) (stopRecorder (recorder st)) false
                    (frames st) (progress st)
      | Timeline.FrameAt currentImageIndex timeIntoCurrentImage =>
          match Compositor.compose images settings
                  currentImageIndex timeIntoCurrentImage with
          | None =>
              mkSession (overallTime st) (recorder st) false
                        (frames st) (progress st)
          | Some ops =>
              let overallTime' := overallTime st + frameDuration in
              let percentage' :=
                Num.min 100
                  (overallTime' / (totalDuration * 1000) * 100) in
              let progress' :=
                mkProgress percentage'
                  (EncodingFrame (currentImageIndex + 1) (List.length images)) in
              if Num.ltb overallTime' (totalDuration * 1000) then
                mkSession overallTime' (recorder st) true
                          (ops :: frames st) progress'
              else
                mkSession overallTime' (stopRecorder (recorder st)) false
                          (ops :: frames st) progress'
          end
      end
  | _ =>
      mkSession (overallTime st) (recorder st) false
                (frames st) (progress st)
  end.

(** The host fires the queued callback, at most [fuel] times; [clock k]
    is the wall-clock timestamp of the [k]-th callback. *)
Fixpoint run (fuel : nat) (clock : nat -> Q) (k : nat) (st : Session)
    : Session :=
  match fuel with
  | O => st
  | S fuel' =>
      if framePending st
      then run fuel' clock (S k) (drawFrame (clock k) st)
      else st
  end.

(** The session at [animationFrameIdRef.current =
    requestAnimationFrame(drawFrame)]. *)
Definition started : Session :=
  mkSession 0 (Some recording) true [] (mkProgress 0 Initializing).

End WithInputs.

End Scheduler.

(** ** Generation session: [generateVideo] up to the first frame request *)

Module Generator.

Inductive MimeType : Set := MIME_TYPE_MP4 | MIME_TYPE_WEBM.

(** What the host offers to [generateVideo]. *)
Record Browser : Set := mkBrowser {
  mediaRecorderDefined : bool;   (* [typeof MediaRecorder !== 'undefined'] *)
  supportsMp4 : bool;            (* [MediaRecorder.isTypeSupported(MP4)] *)
  supportsWebm : bool;
  contextAvailable : bool;       (* [canvas.getContext('2d')] is not null *)
  recorderInitThrows : bool;     (* [captureStream]/[new MediaRecorder] *)
  imagesLoad : bool              (* every [Image] fires [onload] *)
}.

Definition getSupportedMimeType (b : Browser) : MimeType :=
  if mediaRecorderDefined b && supportsMp4 b then MIME_TYPE_MP4
  else if mediaRecorderDefined b && supportsWebm b then MIME_TYPE_WEBM
  else MIME_TYPE_WEBM.

Inductive ErrorMessage : Set :=
| ErrorText (msg : string)
| RecorderInitFailed (mime : MimeType).

(** Observable steps of [generateVideo], in program order. *)
Inductive Effect : Set :=
| SetError (e : option ErrorMessage)
| Cleanup
| SetIsGenerating (b : bool)
| SetProgress (p : Scheduler.VideoGenerationProgress)
| SetGeneratedMimeType (m : MimeType)
| CreateCanvas (w h : Q)
| CaptureStream (fps : Q)
| NewMediaRecorder (m : MimeType)
| RecorderStart
| LoadImages (count : nat)
| RequestAnimationFrame.

Inductive Outcome : Set :=
| Rejected                       (* returned at a precondition check *)
| Aborted                        (* returned after [setIsGenerating(false)] *)
| LoadRejected                   (* the awaited promise rejected *)
| Running (st : Scheduler.Session).

(** The calls that [generateVideo] itself makes, in program order, up
    to the first frame request, and where it returns.  What other
    callbacks of the hook do in the meantime is not part of it: the
    recorder's handlers, and the effect teardown that React runs when
    the [cleanup()] called here resets a non-null [videoUrl] (it runs
    the previous [cleanup] during the [await], which stops the new
    recorder). *)
Definition generateVideo (b : Browser) (images : list UploadedImage)
    (settings : EffectSettings) : list Effect * Outcome :=
  if (List.length images =? 0)%nat then
    ([SetError (Some (ErrorText "No images selected."))], Rejected)
  else if negb (mediaRecorderDefined b) then
    ([SetError (Some (ErrorText
        "MediaRecorder API not supported in this browser."))], Rejected)
  else
    let actualMimeType := getSupportedMimeType b in
    let pre :=
      [Cleanup; SetIsGenerating true; SetError None;
       SetProgress (Scheduler.mkProgress 0 Scheduler.Initializing);
       SetGeneratedMimeType actualMimeType;
       CreateCanvas (videoWidth settings) (videoHeight settings)] in
    if negb (contextAvailable b) then
      (pre ++ [SetError (Some (ErrorText "Failed to get canvas context."));
               SetIsGenerating false], Aborted)
    else if recorderInitThrows b then
      (pre ++ [CaptureStream 30;
               SetError (Some (RecorderInitFailed actualMimeType));
               SetIsGenerating false], Aborted)
    else
      let begun :=
        pre ++ [CaptureStream 30; NewMediaRecorder actualMimeType;
                RecorderStart; LoadImages (List.length images)] in
      if imagesLoad b then
        (begun ++ [RequestAnimationFrame], Running Scheduler.started)
      else (begun, LoadRejected).

(** Steps that allocate a resource: canvas, stream, recorder. *)
Definition allocates (e : Effect) : bool :=
  match e with
  | CreateCanvas _ _ | CaptureStream _ | NewMediaRecorder _ => true
  | _ => false
  end.

(** Steps that put the session in the generating state. *)
Definition entersRunning (e : Effect) : bool :=
  match e with
  | SetIsGenerating true | RecorderStart | RequestAnimationFrame => true
  | _ => false
  end.

(** Steps that report an error to the caller. *)
Definition reportsError (e : Effect) : bool :=
  match e with
  | SetError (Some _) => true
  | _ => false
  end.

(** The precondition errors: no images, a zero or negative
    [durationPerImage], a [transitionDuration] not below
    [durationPerImage], a non-positive output dimension. *)
Definition preconditionError (images : list UploadedImage)
    (settings : EffectSettings) : bool :=
  (List.length images =? 0)%nat
  || Qle_bool (durationPerImage settings) 0
  || Num.geb (transitionDuration settings) (durationPerImage settings)
  || Qle_bool (videoWidth settings) 0
  || Qle_bool (videoHeight settings) 0.

(** The value of [isGenerating] after a run of effects ([None]: never
    set). *)
Definition isGeneratingAfter (trace : list Effect) : option bool :=
  fold_left (fun acc e =>
               match e with
               | SetIsGenerating v => Some v
               | _ => acc
               end) trace None.

End Generator.

(** ** Hook references: [cleanup] and the recorder's data handler *)

Module Hook.

(** The three refs of the hook.  A frame request id is a non-zero
    integer; a recorded chunk is kept as its [size], the only field the
    hook reads. *)
Record Refs : Set := mkRefs {
  animationFrameIdRef : option positive;
  mediaRecorderRef : option Scheduler.RecorderState;
  recordedChunksRef : list N
}.

(** Calls that [cleanup] makes on the host. *)
Inductive Call : Set :=
| CancelAnimationFrame (id : positive)
| RecorderStop
| RevokeObjectURL (url : string)
| SetVideoUrlNull.

(** [cleanup], with the [videoUrl] its closure captured. *)
Definition cleanup (videoUrl : option string) (r : Refs)
    : Refs * list Call :=
  let cancel :=
    match animationFrameIdRef r with
    | Some id => [CancelAnimationFrame id]
    | None => []
    end in
  let stop :=
    match mediaRecorderRef r with
    | Some Scheduler.recording => [RecorderStop]
    | _ => []
    end in
  let revoke :=
    match videoUrl with
    | Some (String c u) => [RevokeObjectURL (String c u); SetVideoUrlNull]
    | _ => []
    end in
  (mkRefs None None [], cancel ++ stop ++ revoke).

(** [ondataavailable]: a chunk is kept when [event.data.size > 0]. *)
Definition ondataavailable (size : N) (r : Refs) : Refs :=
  if (0 <? size)%N
  then mkRefs (animationFrameIdRef r) (mediaRecorderRef r)
              (recordedChunksRef r ++ [size])
  else r.

(** What can happen to the refs between two renders. *)
Inductive Event : Set :=
| DataAvailable (size : N)
| CleanupCalled (videoUrl : option string).

Definition handle (r : Refs) (e : Event) : Refs :=
  match e with
  | DataAvailable size => ondataavailable size r
  | CleanupCalled videoUrl => fst (cleanup videoUrl r)
  end.

End Hook.

(** ** The application's handlers ([App.tsx]) *)

Module App.

Definition MAX_IMAGES : nat := 20.
Definition MAX_FILE_SIZE_MB : N := 5.

(** A selected file with what the browser will answer for it: [read]
    is the data URL of [FileReader.onload] ([None]: [onerror]);
    [decoded] is the width, the height and the text of [Date.now()] at
    [img.onload] ([None]: [img.onerror]). *)
Record File : Set := mkFile {
  name : string;
  size : N;
  type : string;
  read : option string;
  decoded : option (Q * Q * string)
}.

Inductive AppError : Set :=
| TooManyImages
| ExceedsLimit (fileName : string)
| NotAnImage (fileName : string)
| CouldNotLoad (fileName : string)
| ErrorReading (fileName : string)
| PleaseUpload.

(** The promise built for one file: its image, or [null], and the error
    it reports. *)
Definition loadFile (f : File) : option UploadedImage * list AppError :=
  if (MAX_FILE_SIZE_MB * 1024 * 1024 <? size f)%N then
    (None, [ExceedsLimit (name f)])
  else if negb (String.prefix "image/" (type f)) then
    (None, [NotAnImage (name f)])
  else
    match read f with
    | None => (None, [ErrorReading (name f)])
    | Some url =>
        match decoded f with
        | None => (None, [CouldNotLoad (name f)])
        | Some (w, h, now) =>
            (Some (mkUploadedImage (name f ++ "-" ++ now)%string url w h),
             [])
        end
    end.

(** [.filter(img => img !== null)]. *)
Fixpoint nonNull (l : list (option UploadedImage)) : list UploadedImage :=
  match l with
  | [] => []
  | Some img :: rest => img :: nonNull rest
  | None :: rest => nonNull rest
  end.

(** [handleFileChange]: the image list after the handler and the
    errors it reported.  The updater [prev => [...prev, ...newImages]]
    is applied to the list the handler was called with. *)
Definition handleFileChange (images : list UploadedImage)
    (files : list File) : list UploadedImage * list AppError :=
  if (MAX_IMAGES <? List.length images + List.length files)%nat then
    (images, [TooManyImages])
  else
    let results := map loadFile files in
    (images ++ nonNull (map fst results), List.concat (map snd results)).

(** [removeImage]: [prev.filter(img => img.id !== id)]. *)
Definition removeImage (id0 : string) (images : list UploadedImage)
    : list UploadedImage :=
  filter (fun img => negb (String.eqb (id img) id0)) images.

(** [handleGenerateVideo]: the application's error, or the run of the
    hook's [generateVideo]. *)
Definition handleGenerateVideo (b : Generator.Browser)
    (images : list UploadedImage) (settings : EffectSettings)
    : option AppError * option (list Generator.Effect * Generator.Outcome) :=
  if (List.length images =? 0)%nat then (Some PleaseUpload, None)
  else (None, Some (Generator.generateVideo b images settings)).

(** The character of code 34, the double quote inside the two
    constants. *)
Definition doubleQuote : Ascii.ascii :=
  Ascii.Ascii false true false false false true false false.

(** The two constants [MIME_TYPE_MP4] and [MIME_TYPE_WEBM] as text. *)
Definition mimeString (m : Generator.MimeType) : string :=
  match m with
  | Generator.MIME_TYPE_MP4 =>
      ("video/mp4; codecs="
       ++ String doubleQuote ("avc1.42E01E" ++ String doubleQuote ""))%string
  | Generator.MIME_TYPE_WEBM =>
      ("video/webm; codecs="
       ++ String doubleQuote ("vp8, opus" ++ String doubleQuote ""))%string
  end.

(** [s.includes(sub)]. *)
Definition includes (sub s : string) : bool :=
  match String.index 0 sub s with
  | Some _ => true
  | None => false
  end.

(** The extension of the download link:
    [generatedMimeType.includes('mp4') ? 'mp4' : 'webm']. *)
Definition downloadExtension (generatedMimeType : string) : string :=
  if includes "mp4" generatedMimeType then "mp4" else "webm".

End App.

(** ** Concrete inputs *)

Module Examples.

(** The initial settings of the application ([App.tsx]). *)
Definition defaultKenBurns : KenBurns := mkKenBurns true (115 # 100) random.

Definition defaultSettings : EffectSettings :=
  mkEffectSettings 5 1 defaultKenBurns 1280 720 cover.

Definition withPan (d : PanDirection) (s : EffectSettings) : EffectSettings :=
  mkEffectSettings (durationPerImage s) (transitionDuration s)
    (mkKenBurns (enabled (kenBurns s)) (zoomFactor (kenBurns s)) d)
    (videoWidth s) (videoHeight s) (imageFit s).

Definition withDurations (d t : Q) (s : EffectSettings) : EffectSettings :=
  mkEffectSettings d t (kenBurns s) (videoWidth s) (videoHeight s)
    (imageFit s).

Definition photo (name : string) (w h : Q) : UploadedImage :=
  mkUploadedImage name "data:image/png;base64," w h.

Definition threePhotos : list UploadedImage :=
  [photo "a" 1920 1080; photo "b" 1600 1200; photo "c" 1080 1920].

Definition goodBrowser : Generator.Browser :=
  Generator.mkBrowser true true true true false true.

End Examples.

(** ** The specification's reading of 'random' *)

Module RandomSpec.

(** Two argument lists of [drawImage] with equal numbers. *)
Definition sameArgs (a b : Geometry.DrawImageArgs) : Prop :=
  Geometry.sx a == Geometry.sx b /\ Geometry.sy a == Geometry.sy b
  /\ Geometry.sWidth a == Geometry.sWidth b
  /\ Geometry.sHeight a == Geometry.sHeight b
  /\ Geometry.dx a == Geometry.dx b /\ Geometry.dy a == Geometry.dy b
  /\ Geometry.dWidth a == Geometry.dWidth b
  /\ Geometry.dHeight a == Geometry.dHeight b.

(** The specification's sentence on 'random', in its words, written
    for comparison with the code: every image has one concrete
    direction, a directional pan, with which all its frames are
    drawn. *)
Definition resolvedOncePerImage (s : EffectSettings) (cw ch : Q) : Prop :=
  forall img : UploadedImage,
  exists d : PanDirection,
    Geometry.directional d = true
    /\ forall p : Q, 0 <= p <= 1 ->
         sameArgs
           (Geometry.applyKenBurnsAndDraw img (Examples.withPan random s)
              p cw ch)
           (Geometry.applyKenBurnsAndDraw img (Examples.withPan d s)
              p cw ch).

End RandomSpec.

(** * Properties *)

(** ** Facts on comparisons *)

Module NumFacts.

Import Num.

Lemma ltb_lt (x y : Q) : ltb x y = true <-> x < y.
Proof.
  unfold ltb. rewrite negb_true_iff.
  destruct (Qle_bool y x) eqn:E.
  - apply Qle_bool_iff in E. split; [discriminate | intro H; exfalso; lra].
  - split; [intros _ | reflexivity].
    apply Qnot_le_lt. intro H. apply Qle_bool_iff in H. congruence.
Qed.

Lemma ltb_ge (x y : Q) : ltb x y = false <-> y <= x.
Proof.
  unfold ltb. rewrite negb_false_iff. apply Qle_bool_iff.
Qed.

Lemma geb_ge (x y : Q) : geb x y = true <-> y <= x.
Proof. apply Qle_bool_iff. Qed.

Lemma geb_lt (x y : Q) : geb x y = false <-> x < y.
Proof.
  unfold geb. rewrite <- (ltb_lt x y). unfold ltb.
  destruct (Qle_bool y x); simpl; split; congruence.
Qed.

Lemma gtb_gt (x y : Q) : gtb x y = true <-> y < x.
Proof. apply ltb_lt. Qed.

Lemma gtb_le (x y : Q) : gtb x y = false <-> x <= y.
Proof. apply ltb_ge. Qed.

Lemma min_spec (a b : Q) :
  (a <= b /\ min a b = a) \/ (b < a /\ min a b = b).
Proof.
  unfold min. destruct (Qle_bool a b) eqn:E.
  - left. split; [now apply Qle_bool_iff | reflexivity].
  - right. split; [| reflexivity].
    apply Qnot_le_lt. intro H. apply Qle_bool_iff in H. congruence.
Qed.

End NumFacts.

Lemma ofnat_S (n : nat) : ofnat (S n) == ofnat n + 1.
Proof.
  unfold ofnat. rewrite Nat2Z.inj_succ. unfold Z.succ.
  rewrite inject_Z_plus. reflexivity.
Qed.

Lemma ofnat_nonneg (n : nat) : 0 <= ofnat n.
Proof.
  unfold ofnat. change 0 with (inject_Z 0). rewrite <- Zle_Qle. lia.
Qed.

Lemma ofnat_le (n m : nat) : (n <= m)%nat -> ofnat n <= ofnat m.
Proof. intro H. unfold ofnat. rewrite <- Zle_Qle. lia. Qed.

(** ** The segment scan *)

Module TimelineFacts.

Import Timeline.

Section WithSettings.

Variable settings : EffectSettings.
Variable len : nat.

(** The loop stops at the first index whose window holds [t]. *)
Lemma scanFrom_Some (t : Q) (k i j : nat) (tm : Q) :
  scanFrom settings len t k i = Some (j, tm) <->
  (i <= j < i + k)%nat
  /\ inWindow settings len t j = true
  /\ (forall j', (i <= j' < j)%nat -> inWindow settings len t j' = false)
  /\ tm = t - imageDisplayStartTime settings j.
Proof.
  revert i. induction k as [|k IH]; intro i; simpl.
  - split; [discriminate | intros [H _]; lia].
  - destruct (inWindow settings len t i) eqn:E.
    + split.
      * intro H. inversion H; subst.
        split; [lia|]. split; [exact E|]. split; [|reflexivity].
        intros j' Hj'. lia.
      * intros (Hr & Hw & Hfirst & ->).
        destruct (Nat.eq_dec i j) as [->|Hne]; [reflexivity|].
        rewrite (Hfirst i) in E by lia. discriminate.
    + rewrite IH. split.
      * intros (Hr & Hw & Hfirst & ->).
        split; [lia|]. split; [exact Hw|]. split; [|reflexivity].
        intros j' Hj'. destruct (Nat.eq_dec j' i) as [->|Hne]; [exact E|].
        apply Hfirst. lia.
      * intros (Hr & Hw & Hfirst & ->).
        assert (i <> j) by (intros ->; congruence).
        split; [lia|]. split; [exact Hw|]. split; [|reflexivity].
        intros j' Hj'. apply Hfirst. lia.
Qed.

(** The loop runs to its end exactly when no window holds [t]. *)
Lemma scanFrom_None (t : Q) (k i : nat) :
  scanFrom settings len t k i = None <->
  forall j, (i <= j < i + k)%nat -> inWindow settings len t j = false.
Proof.
  revert i. induction k as [|k IH]; intro i; simpl.
  - split; [intros _ j Hj; lia | reflexivity].
  - destruct (inWindow settings len t i) eqn:E.
    + split; [discriminate|]. intro H. rewrite (H i) in E by lia.
      discriminate.
    + rewrite IH. split; intros H j Hj.
      * destruct (Nat.eq_dec j i) as [->|Hne]; [exact E | apply H; lia].
      * apply H. lia.
Qed.

Lemma inWindow_iff (t : Q) (i : nat) :
  inWindow settings len t i = true <->
  imageDisplayStartTime settings i <= t
  /\ t < imageDisplayEndTime settings len i.
Proof.
  unfold inWindow. rewrite andb_true_iff, NumFacts.geb_ge, NumFacts.ltb_lt.
  reflexivity.
Qed.

(** [totalDuration] for a non-empty list of [S n] images. *)
Lemma totalDuration_S (n : nat) :
  totalDuration settings (S n)
  == ofnat (S n) * durationPerImage settings
     + ofnat n * transitionDuration settings.
Proof.
  unfold totalDuration. destruct n as [|n]; cbn [Nat.ltb Nat.leb]; cbv zeta.
  - assert (H : ofnat 0 == 0) by reflexivity. rewrite H. ring.
  - rewrite (ofnat_S (S n)). ring.
Qed.

End WithSettings.

End TimelineFacts.

(** ** Resolved frames under well-formed settings *)

Module ResolveFacts.

Import Timeline.

Section WellFormed.

Variable settings : EffectSettings.
Variable len : nat.

Hypothesis duration_pos : 0 < durationPerImage settings.
Hypothesis transition_nonneg : 0 <= transitionDuration settings.
Hypothesis transition_lt : transitionDuration settings < durationPerImage settings.

Lemma start_0 : imageDisplayStartTime settings 0 == 0.
Proof. unfold imageDisplayStartTime, ofnat. simpl. ring. Qed.

Lemma start_S (i : nat) :
  imageDisplayStartTime settings (S i)
  == (ofnat i + 1) * durationPerImage settings - transitionDuration settings.
Proof.
  unfold imageDisplayStartTime. simpl Nat.ltb. cbv iota.
  rewrite ofnat_S. reflexivity.
Qed.

Lemma end_inner (i : nat) :
  (S i < len)%nat ->
  imageDisplayEndTime settings len i
  == imageDisplayStartTime settings i + durationPerImage settings
     + transitionDuration settings.
Proof.
  intro H. unfold imageDisplayEndTime.
  destruct (Z.ltb_spec (Z.of_nat i) (Z.of_nat len - 1)); [reflexivity | lia].
Qed.

Lemma end_last (i : nat) :
  (len <= S i)%nat ->
  imageDisplayEndTime settings len i
  == imageDisplayStartTime settings i + durationPerImage settings.
Proof.
  intro H. unfold imageDisplayEndTime.
  destruct (Z.ltb_spec (Z.of_nat i) (Z.of_nat len - 1)); [lia | ring].
Qed.

(** Where the scan stops: the index is in range, the local time is
    non-negative, it has passed the fade-in interval for every image but
    the first, and it exceeds [durationPerImage] only for an image that
    has a successor and a non-zero transition. *)
Lemma scan_time_bound (t : Q) (i : nat) (tm : Q) :
  scan settings len t = Some (i, tm) ->
  (i < len)%nat
  /\ 0 <= tm
  /\ ((0 < i)%nat -> transitionDuration settings <= tm)
  /\ (durationPerImage settings < tm ->
      (S i < len)%nat /\ 0 < transitionDuration settings
      /\ tm < durationPerImage settings + transitionDuration settings).
Proof using duration_pos transition_nonneg transition_lt.
  unfold scan. intro H. apply TimelineFacts.scanFrom_Some in H.
  destruct H as (Hr & Hw & Hfirst & ->).
  apply TimelineFacts.inWindow_iff in Hw. destruct Hw as [Hs He].
  split; [lia|]. split; [lra|]. split.
  - intro Hi. destruct i as [|i]; [lia|].
    assert (Hp : inWindow settings len t i = false) by (apply Hfirst; lia).
    assert (Hn : ~ (imageDisplayStartTime settings i <= t
                    /\ t < imageDisplayEndTime settings len i)).
    { rewrite <- TimelineFacts.inWindow_iff. congruence. }
    rewrite end_inner in Hn by lia.
    rewrite start_S in Hs |- *.
    destruct i as [|i].
    + rewrite start_0 in Hn.
      assert (H0 : ofnat 0 == 0) by reflexivity.
      rewrite H0 in Hs |- *.
      assert (~ t < 0 + durationPerImage settings + transitionDuration settings)
        by (intro; apply Hn; split; lra).
      lra.
    + rewrite start_S in Hn. rewrite ofnat_S in Hs |- *.
      assert (Hge : 0 <= ofnat i) by apply ofnat_nonneg.
      assert (~ t < (ofnat i + 1) * durationPerImage settings
                    - transitionDuration settings
                    + durationPerImage settings + transitionDuration settings).
      { intro. apply Hn. split; [|assumption]. nra. }
      lra.
  - intro Hgt.
    destruct (Nat.lt_ge_cases (S i) len) as [Hlt|Hge].
    + rewrite end_inner in He by lia. split; [lia|]. split; lra.
    + rewrite end_last in He by lia. exfalso. lra.
Qed.

(** The same for the frame that [resolve] hands to the compositor. *)
Lemma resolve_bound (t : Q) (idx : Z) (tm : Q) :
  (0 < len)%nat ->
  resolve settings len t = FrameAt idx tm ->
  (0 <= idx < Z.of_nat len)%Z
  /\ 0 <= tm
  /\ ((0 < idx)%Z -> transitionDuration settings <= tm)
  /\ (durationPerImage settings < tm ->
      (idx + 1 < Z.of_nat len)%Z /\ 0 < transitionDuration settings
      /\ tm < durationPerImage settings + transitionDuration settings).
Proof using duration_pos transition_nonneg transition_lt.
  intros Hlen. unfold resolve.
  destruct (scan settings len t) as [[i tm']|] eqn:E.
  - intro H. inversion H; subst.
    destruct (scan_time_bound _ _ _ E) as (H1 & H2 & H3 & H4).
    split; [lia|]. split; [assumption|]. split.
    + intro. apply H3. lia.
    + intro Hd. destruct (H4 Hd) as (? & ? & ?). split; [lia|]. split; assumption.
  - destruct (Num.geb t (totalDuration settings len)); [discriminate|].
    intro H. inversion H; subst.
    split; [lia|]. split; [lra|]. split; [intro; lra|]. intro. exfalso. lra.
Qed.

End WellFormed.

End ResolveFacts.

(** ** Total duration and the timeline *)

Module TimelineProps.

Import Timeline.

(** C6.  For [N = S n >= 1] images the total duration computed by
    [generateVideo] is [N * durationPerImage + (N - 1) *
    transitionDuration]; the formula gives [0] for no image, and with no
    image [generateVideo] returns at its first check: its only effect is
    the error message, whatever the host offers. *)
Theorem totalDuration_formula (settings : EffectSettings) (n : nat)
    (b : Generator.Browser) :
  totalDuration settings (S n)
  == ofnat (S n) * durationPerImage settings
     + (ofnat (S n) - 1) * transitionDuration settings
  /\ totalDuration settings 0 == 0
  /\ Generator.generateVideo b [] settings
     = ([Generator.SetError
           (Some (Generator.ErrorText "No images selected."))],
        Generator.Rejected).
Proof.
  split; [|split].
  - rewrite TimelineFacts.totalDuration_S. rewrite (ofnat_S n). ring.
  - unfold totalDuration. cbn [Nat.ltb Nat.leb]. cbv zeta.
    assert (H : ofnat 0 == 0) by reflexivity. rewrite H. ring.
  - reflexivity.
Qed.

(** C5.  The scan is in index order and stops at the first window that
    holds [t]; when no window holds [t], the timeline ends if
    [t >= totalDuration], and otherwise the frame is the last image at
    local time [durationPerImage].  In [drawFrame], at the time
    [t = overallTime / 1000] of a recording session: at the end of the
    timeline the recorder is stopped, nothing is painted, the clock and
    the progress stay and no further frame is requested; in the clamped
    case the frame painted is the one composed for the last image at
    local time [durationPerImage]. *)
Theorem resolve_spec (settings : EffectSettings) (len : nat) (t : Q) :
  (forall i, (i < len)%nat ->
     inWindow settings len t i = true ->
     (forall j, (j < i)%nat -> inWindow settings len t j = false) ->
     resolve settings len t
     = FrameAt (Z.of_nat i) (t - imageDisplayStartTime settings i))
  /\ ((forall j, (j < len)%nat -> inWindow settings len t j = false) ->
      totalDuration settings len <= t ->
      resolve settings len t = EndOfTimeline)
  /\ ((forall j, (j < len)%nat -> inWindow settings len t j = false) ->
      t < totalDuration settings len ->
      resolve settings len t
      = FrameAt (Z.of_nat len - 1) (durationPerImage settings))
  /\ (forall (images : list UploadedImage) (timestamp : Q)
             (st : Scheduler.Session),
        List.length images = len ->
        Scheduler.recorder st = Some Scheduler.recording ->
        Scheduler.overallTime st / 1000 = t ->
        (forall j, (j < len)%nat -> inWindow settings len t j = false) ->
        totalDuration settings len <= t ->
        Scheduler.drawFrame images settings timestamp st
        = Scheduler.mkSession (Scheduler.overallTime st)
            (Some Scheduler.inactive) false
            (Scheduler.frames st) (Scheduler.progress st))
  /\ (forall (images : list UploadedImage) (timestamp : Q)
             (st : Scheduler.Session),
        List.length images = len ->
        Scheduler.recorder st = Some Scheduler.recording ->
        Scheduler.overallTime st / 1000 = t ->
        (forall j, (j < len)%nat -> inWindow settings len t j = false) ->
        t < totalDuration settings len ->
        match Compositor.compose images settings (Z.of_nat len - 1)
                (durationPerImage settings) with
        | Some ops =>
            Scheduler.frames
              (Scheduler.drawFrame images settings timestamp st)
            = ops :: Scheduler.frames st
            /\ Scheduler.overallTime
                 (Scheduler.drawFrame images settings timestamp st)
               = Scheduler.overallTime st + 1000 / 30
        | None =>
            Scheduler.frames
              (Scheduler.drawFrame images settings timestamp st)
            = Scheduler.frames st
        end).
Proof.
  assert (Hnone_scan :
            (forall j, (j < len)%nat -> inWindow settings len t j = false) ->
            scan settings len t = None).
  { intro Hnone. unfold scan. apply TimelineFacts.scanFrom_None.
    intros j Hj. apply Hnone. lia. }
  assert (Hend :
            (forall j, (j < len)%nat -> inWindow settings len t j = false) ->
            totalDuration settings len <= t ->
            resolve settings len t = EndOfTimeline).
  { intros Hnone Hge. unfold resolve. rewrite (Hnone_scan Hnone).
    apply NumFacts.geb_ge in Hge. rewrite Hge. reflexivity. }
  assert (Hclamp :
            (forall j, (j < len)%nat -> inWindow settings len t j = false) ->
            t < totalDuration settings len ->
            resolve settings len t
            = FrameAt (Z.of_nat len - 1) (durationPerImage settings)).
  { intros Hnone Hlt. unfold resolve. rewrite (Hnone_scan Hnone).
    apply NumFacts.geb_lt in Hlt. rewrite Hlt. reflexivity. }
  split; [|split; [exact Hend|split; [exact Hclamp|split]]].
  - intros i Hi Hw Hfirst. unfold resolve.
    assert (E : scan settings len t
                = Some (i, t - imageDisplayStartTime settings i)).
    { unfold scan. apply TimelineFacts.scanFrom_Some.
      split; [lia|]. split; [exact Hw|]. split; [|reflexivity].
      intros j Hj. apply Hfirst. lia. }
    rewrite E. reflexivity.
  - intros images timestamp st Hlen Hrec Ht Hnone Hge.
    unfold Scheduler.drawFrame. rewrite Hrec, Hlen, Ht.
    rewrite (Hend Hnone Hge). reflexivity.
  - intros images timestamp st Hlen Hrec Ht Hnone Hlt.
    unfold Scheduler.drawFrame. rewrite Hrec, Hlen, Ht.
    rewrite (Hclamp Hnone Hlt).
    destruct (Compositor.compose images settings (Z.of_nat len - 1)
                (durationPerImage settings)) as [ops|]; [|reflexivity].
    cbv zeta.
    destruct (Num.ltb (Scheduler.overallTime st + Scheduler.frameDuration)
                (Scheduler.totalDuration images settings * 1000));
      split; reflexivity.
Qed.

(** With three images and the default durations: [t = 11/2] is in the
    first window, [t = 17] ends the timeline, [t = 16] is in no window
    and is clamped to the last image; a recording session whose clock
    is at 17000 ms is stopped by the next callback without a frame. *)
Lemma resolve_spec_witness :
  resolve Examples.defaultSettings 3 (11 # 2)
  = FrameAt 0 ((11 # 2) - imageDisplayStartTime Examples.defaultSettings 0)
  /\ resolve Examples.defaultSettings 3 17 = EndOfTimeline
  /\ resolve Examples.defaultSettings 3 16 = FrameAt 2 5
  /\ Scheduler.drawFrame Examples.threePhotos Examples.defaultSettings 0
       (Scheduler.mkSession 17000 (Some Scheduler.recording) true []
          (Scheduler.mkProgress 0 Scheduler.Initializing))
     = Scheduler.mkSession 17000 (Some Scheduler.inactive) false []
         (Scheduler.mkProgress 0 Scheduler.Initializing).
Proof.
  destruct (resolve_spec Examples.defaultSettings 3 (11 # 2)) as (H1 & _).
  destruct (resolve_spec Examples.defaultSettings 3 17) as (_ & H2 & _).
  destruct (resolve_spec Examples.defaultSettings 3 16) as (_ & _ & H3 & _).
  destruct (resolve_spec Examples.defaultSettings 3 (17000 / 1000))
    as (_ & _ & _ & H4 & _).
  split; [|split; [|split]].
  - apply (H1 0%nat); [lia | reflexivity | intros j Hj; lia].
  - apply H2.
    + intros j Hj.
      destruct j as [|[|[|j]]]; [reflexivity | reflexivity | reflexivity | lia].
    + vm_compute. discriminate.
  - apply H3.
    + intros j Hj.
      destruct j as [|[|[|j]]]; [reflexivity | reflexivity | reflexivity | lia].
    + reflexivity.
  - apply (H4 Examples.threePhotos 0
             (Scheduler.mkSession 17000 (Some Scheduler.recording) true []
                (Scheduler.mkProgress 0 Scheduler.Initializing))).
    + reflexivity.
    + reflexivity.
    + reflexivity.
    + intros j Hj.
      destruct j as [|[|[|j]]]; [reflexivity | reflexivity | reflexivity | lia].
    + vm_compute. discriminate.
Defined.

End TimelineProps.

(** ** Coverage of the timeline by the windows *)

Module CoverageProps.

Import Timeline.

Section WellFormed.

Variable settings : EffectSettings.
Variable len : nat.

Hypothesis duration_pos : 0 < durationPerImage settings.
Hypothesis transition_nonneg : 0 <= transitionDuration settings.
Hypothesis transition_lt : transitionDuration settings < durationPerImage settings.

(** Consecutive windows leave no gap between them: the next one starts
    before the current one ends. *)
Lemma windows_contiguous (i : nat) :
  (S i < len)%nat ->
  imageDisplayStartTime settings (S i) <= imageDisplayEndTime settings len i.
Proof.
  intro H. rewrite (ResolveFacts.end_inner settings len i H).
  rewrite ResolveFacts.start_S. destruct i as [|i].
  - rewrite ResolveFacts.start_0.
    assert (H0 : ofnat 0 == 0) by reflexivity. rewrite H0. lra.
  - rewrite ResolveFacts.start_S. rewrite ofnat_S. lra.
Qed.

(** The first two windows share [2 * transitionDuration]. *)
Lemma first_overlap :
  (2 <= len)%nat ->
  imageDisplayEndTime settings len 0 - imageDisplayStartTime settings 1
  == 2 * transitionDuration settings.
Proof.
  intro H. rewrite (ResolveFacts.end_inner settings len 0) by lia.
  rewrite ResolveFacts.start_S, ResolveFacts.start_0.
  assert (H0 : ofnat 0 == 0) by reflexivity. rewrite H0. ring.
Qed.

(** Later consecutive windows share [transitionDuration]. *)
Lemma later_overlap (i : nat) :
  (S (S i) < len)%nat ->
  imageDisplayEndTime settings len (S i)
  - imageDisplayStartTime settings (S (S i))
  == transitionDuration settings.
Proof.
  intro H. rewrite (ResolveFacts.end_inner settings len (S i)) by lia.
  rewrite !ResolveFacts.start_S. rewrite ofnat_S. ring.
Qed.



Lemma tail_nonempty :
  (2 <= len)%nat -> 0 < transitionDuration settings ->
  ofnat len * durationPerImage settings < totalDuration settings len.
Proof.
  intros H2 HT. unfold totalDuration.
  destruct (Nat.ltb_spec 1 len) as [_|]; [|lia]. cbv zeta.
  assert (Hle : ofnat 2 <= ofnat len) by (apply ofnat_le; lia).
  assert (H2' : ofnat 2 == 2) by reflexivity. rewrite H2' in Hle. nra.
Qed.

End WellFormed.

(** C1.  Two images with the default durations ([D = 5], [T = 1]):
    [totalDuration] is [11], the windows are [[0, 6)] and [[4, 9)], so
    [t = 10 < 11] lies in no window (the scan fails and the frame is
    the fallback), and the two windows share [2 = 2 * T] seconds. *)
Theorem default_timeline_uncovered :
  totalDuration Examples.defaultSettings 2 == 11
  /\ imageDisplayStartTime Examples.defaultSettings 0 == 0
  /\ imageDisplayEndTime Examples.defaultSettings 2 0 == 6
  /\ imageDisplayStartTime Examples.defaultSettings 1 == 4
  /\ imageDisplayEndTime Examples.defaultSettings 2 1 == 9
  /\ scan Examples.defaultSettings 2 10 = None
  /\ resolve Examples.defaultSettings 2 10 = FrameAt 1 5
  /\ imageDisplayEndTime Examples.defaultSettings 2 0
     - imageDisplayStartTime Examples.defaultSettings 1
     == 2 * transitionDuration Examples.defaultSettings.
Proof. repeat split; reflexivity. Qed.

End CoverageProps.

(** ** Crossfade *)

Module CrossfadeProps.

Import Timeline Compositor.

Lemma imageElement_in_range (images : list UploadedImage) (i : Z) :
  (0 <= i < Z.of_nat (List.length images))%Z ->
  exists img, imageElement images i = Some img.
Proof.
  intro H. unfold imageElement.
  destruct (Z.ltb_spec i 0) as [|_]; [lia|].
  destruct (nth_error images (Z.to_nat i)) as [img|] eqn:E.
  - exists img. reflexivity.
  - apply nth_error_None in E. lia.
Qed.

Section WellFormed.

Variable images : list UploadedImage.
Variable settings : EffectSettings.

Hypothesis duration_pos : 0 < durationPerImage settings.
Hypothesis transition_nonneg : 0 <= transitionDuration settings.
Hypothesis transition_lt : transitionDuration settings < durationPerImage settings.

(** A resolved frame is never in the fade-in branch: the previous
    window is scanned first and holds every time of the fade-in
    interval. *)
Lemma resolved_never_fades_in (t : Q) (idx : Z) (tm : Q) :
  (0 < List.length images)%nat ->
  resolve settings (List.length images) t = FrameAt idx tm ->
  fadingIn settings idx tm = false.
Proof.
  intros Hlen H.
  destruct (ResolveFacts.resolve_bound settings (List.length images)
              duration_pos transition_nonneg transition_lt t idx tm Hlen H)
    as (_ & _ & Hin & _).
  unfold fadingIn. destruct (Z.ltb_spec 0 idx) as [Hpos|_].
  - rewrite andb_true_r. apply NumFacts.ltb_ge. auto.
  - apply andb_false_r.
Qed.


End WellFormed.

(** C2.  On every tick at which the current image is fading out (the
    time is in the overlap of image [idx] and image [idx + 1]), the
    frame paints image [idx] and then image [idx + 1], and the two
    alphas add up to [1]; the divisor [transitionDuration] of the
    transition progress is not zero there and the next image's alpha is
    [(timeIntoCurrentImage - durationPerImage) / transitionDuration]. *)
Theorem crossfade_alphas_sum_to_one (images : list UploadedImage)
    (settings : EffectSettings) (t : Q) (idx : Z) (tm : Q) :
  0 < durationPerImage settings ->
  0 <= transitionDuration settings ->
  transitionDuration settings < durationPerImage settings ->
  resolve settings (List.length images) t = FrameAt idx tm ->
  fadingOut images settings idx tm = true ->
  0 < transitionDuration settings
  /\ (exists cur next,
        imageElement images idx = Some cur
        /\ imageElement images (idx + 1) = Some next
        /\ compose images settings idx tm
           = Some [FillRect 0 0 (videoWidth settings) (videoHeight settings);
                   DrawImage cur (alpha images settings idx tm)
                     (Geometry.applyKenBurnsAndDraw cur settings
                        (progressInImage settings tm)
                        (videoWidth settings) (videoHeight settings));
                   DrawImage next (nextAlpha settings idx tm)
                     (Geometry.applyKenBurnsAndDraw next settings 0
                        (videoWidth settings) (videoHeight settings))])
  /\ alpha images settings idx tm + nextAlpha settings idx tm == 1
  /\ nextAlpha settings idx tm
     == (tm - durationPerImage settings) / transitionDuration settings
  /\ 0 < nextAlpha settings idx tm < 1.
Proof.
  intros HD HT0 HTD Hres Hfade.
  assert (Hlen : (0 < List.length images)%nat).
  { destruct images as [|x xs]; [|simpl; lia].
    unfold fadingOut in Hfade. simpl in Hfade.
    apply andb_true_iff in Hfade. destruct Hfade as [_ Hf].
    unfold resolve in Hres. simpl in Hres.
    destruct (Num.geb t (totalDuration settings 0)); [discriminate|].
    inversion Hres; subst. discriminate. }
  destruct (ResolveFacts.resolve_bound settings (List.length images)
              HD HT0 HTD t idx tm Hlen Hres) as (Hidx & Htm & _ & Hout).
  assert (Hgt : durationPerImage settings < tm).
  { unfold fadingOut in Hfade. apply andb_true_iff in Hfade.
    apply NumFacts.gtb_gt. tauto. }
  destruct (Hout Hgt) as (Hnext & HTpos & Hupper).
  split; [exact HTpos|].
  assert (Etp : transitionProgress settings idx tm
                = (tm - durationPerImage settings)
                  / transitionDuration settings).
  { unfold transitionProgress.
    apply NumFacts.gtb_gt in Hgt. rewrite Hgt. reflexivity. }
  assert (Hq0 : 0 < (tm - durationPerImage settings)
                    / transitionDuration settings).
  { apply Qlt_shift_div_l; [assumption | lra]. }
  assert (Hq1 : (tm - durationPerImage settings)
                / transitionDuration settings < 1).
  { apply Qlt_shift_div_r; [assumption | lra]. }
  assert (Enext : nextAlpha settings idx tm
                  = (tm - durationPerImage settings)
                    / transitionDuration settings).
  { unfold nextAlpha. rewrite Etp.
    destruct (NumFacts.min_spec 1
                ((tm - durationPerImage settings)
                 / transitionDuration settings)) as [[Hle _]|[_ ->]];
      [exfalso; lra | reflexivity]. }
  split.
  - destruct (imageElement_in_range images idx) as [cur Hcur]; [lia|].
    destruct (imageElement_in_range images (idx + 1)) as [next Hnx]; [lia|].
    exists cur, next. split; [exact Hcur|]. split; [exact Hnx|].
    unfold compose. rewrite Hcur, Hfade, Hnx. reflexivity.
  - split; [|split].
    + unfold alpha. rewrite Hfade. fold (nextAlpha settings idx tm). ring.
    + rewrite Enext. reflexivity.
    + rewrite Enext. split; assumption.
Qed.

(** Three photos, default settings, [t = 11/2]: the first image is
    fading out. *)
Lemma crossfade_alphas_sum_to_one_witness :
  alpha Examples.threePhotos Examples.defaultSettings 0 (11 # 2)
  + nextAlpha Examples.defaultSettings 0 (11 # 2) == 1.
Proof.
  apply (crossfade_alphas_sum_to_one Examples.threePhotos
           Examples.defaultSettings (11 # 2) 0 (11 # 2)).
  - reflexivity.
  - discriminate.
  - reflexivity.
  - reflexivity.
  - reflexivity.
Defined.

End CrossfadeProps.

(** ** Ken Burns geometry *)

Module GeometryProps.

Import Geometry.

Lemma directional_cases (d : PanDirection) :
  directional d = false <-> d = random \/ d = zoom_in \/ d = zoom_out.
Proof.
  destruct d; simpl; split; intro H; try reflexivity; try discriminate;
    auto; destruct H as [H|[H|H]]; discriminate.
Qed.

Lemma offsetX_non_directional (kb : KenBurns) (w p : Q) :
  directional (panDirection kb) = false -> offsetX kb w p = 0.
Proof. intro H. unfold offsetX. rewrite H. reflexivity. Qed.

Lemma offsetY_non_directional (kb : KenBurns) (w p : Q) :
  directional (panDirection kb) = false -> offsetY kb w p = 0.
Proof. intro H. unfold offsetY. rewrite H. reflexivity. Qed.

(** Both offsets are bounded by [maxPanOffset], which is a tenth of the
    source WIDTH, for the vertical offset too. *)
Lemma offsets_le_maxPanOffset (kb : KenBurns) (w p : Q) :
  0 <= w -> 0 <= p <= 1 ->
  Qabs (offsetX kb w p) <= maxPanOffset w
  /\ Qabs (offsetY kb w p) <= maxPanOffset w.
Proof.
  intros Hw [Hp0 Hp1]. unfold offsetX, offsetY, maxPanOffset.
  destruct (panDirection kb);
    cbv [directional PanDirection_eqb negb andb]; cbv zeta;
    split; apply (proj2 (Qabs_Qle_condition _ _)); split; nra.
Qed.

(** [zoom] is at least [1] on the frames of an image. *)
Lemma zoom_ge_1 (kb : KenBurns) (p : Q) :
  1 <= zoomFactor kb -> 0 <= p -> 1 <= zoom kb p.
Proof. intros Hz Hp. unfold zoom. nra. Qed.

(** A quotient by a number at least [1] stays between [0] and the
    dividend. *)
Lemma shrink_bounds (w z : Q) : 0 <= w -> 1 <= z -> 0 <= w / z <= w.
Proof.
  intros Hw Hz.
  assert (E : w / z * z == w) by (field; lra).
  split.
  - apply Qle_shift_div_l; lra.
  - apply Qle_shift_div_r; [lra | nra].
Qed.

(** The rectangles of the fit lie within the image. *)
Lemma fitRect_inside (img : UploadedImage) (fit : ImageFit) (cw ch : Q) :
  0 < width img -> 0 < height img -> 0 < cw -> 0 < ch ->
  sourceInImage img (fitRect (width img) (height img) fit cw ch)
  /\ 0 <= sWidth (fitRect (width img) (height img) fit cw ch)
  /\ 0 <= sHeight (fitRect (width img) (height img) fit cw ch).
Proof.
  intros Hw Hh Hcw Hch.
  set (W := width img) in *. set (H := height img) in *.
  assert (Ha : 0 < cw / ch) by (apply Qlt_shift_div_l; lra).
  assert (Er : W / H * H == W) by (field; lra).
  unfold sourceInImage, inside, fitRect. fold W H.
  destruct fit.
  - destruct (Num.gtb (W / H) (cw / ch)) eqn:E; cbn [sx sy sWidth sHeight].
    + apply NumFacts.gtb_gt in E.
      set (a := cw / ch) in *. set (r := W / H) in *.
      assert (H * a < W) by nra.
      assert (Eh : (W - H * a) / 2 == (1 # 2) * (W - H * a)) by field.
      rewrite Eh. repeat split; nra.
    + apply NumFacts.gtb_le in E.
      set (a := cw / ch) in *. set (r := W / H) in *.
      assert (Eq : W / a * a == W) by (field; lra).
      set (q := W / a) in *.
      assert (q <= H) by nra.
      assert (0 <= q) by nra.
      assert (Eh : (H - q) / 2 == (1 # 2) * (H - q)) by field.
      rewrite Eh. repeat split; nra.
  - destruct (Num.gtb (W / H) (cw / ch)); cbn [sx sy sWidth sHeight];
      repeat split; lra.
Qed.

(** With no directional pan, the Ken Burns block shrinks the source
    rectangle inside itself. *)
Lemma kenBurnsRect_inside (kb : KenBurns) (p : Q) (r : DrawImageArgs) :
  1 <= zoomFactor kb -> 0 <= p ->
  0 <= sWidth r -> 0 <= sHeight r ->
  directional (panDirection kb) = false ->
  inside (sx (kenBurnsRect kb p r)) (sy (kenBurnsRect kb p r))
         (sWidth (kenBurnsRect kb p r)) (sHeight (kenBurnsRect kb p r))
         (sx r) (sy r) (sWidth r) (sHeight r).
Proof.
  intros Hz Hp Hw Hh Hd. unfold kenBurnsRect, inside.
  destruct (enabled kb); [|repeat split; lra].
  cbn [sx sy sWidth sHeight].
  rewrite (offsetX_non_directional _ _ _ Hd), (offsetY_non_directional _ _ _ Hd).
  assert (Hz1 := zoom_ge_1 kb p Hz Hp).
  destruct (shrink_bounds (sWidth r) (zoom kb p) Hw Hz1) as [Hw0 Hw1].
  destruct (shrink_bounds (sHeight r) (zoom kb p) Hh Hz1) as [Hh0 Hh1].
  set (nw := sWidth r / zoom kb p) in *.
  set (nh := sHeight r / zoom kb p) in *.
  assert (Ew : (sWidth r - nw) / 2 == (1 # 2) * (sWidth r - nw)) by field.
  assert (Eh : (sHeight r - nh) / 2 == (1 # 2) * (sHeight r - nh)) by field.
  rewrite Ew, Eh. repeat split; lra.
Qed.

End GeometryProps.

Module KenBurnsProps.

Import Geometry.

(** [zoom] does not decrease along the frames of an image. *)
Lemma zoom_monotone (kb : KenBurns) (p1 p2 : Q) :
  1 <= zoomFactor kb -> p1 <= p2 -> zoom kb p1 <= zoom kb p2.
Proof. intros Hz Hp. unfold zoom. nra. Qed.

(** C3, as the code has it.  Whatever the pan direction, 'zoom-in' and
    'zoom-out' included, the zoom at progress [p] is
    [1 + (zoomFactor - 1) * p]: it is [1] at [p = 0] and [zoomFactor] at
    [p = 1], and the drawn source rectangle has the fitted width and
    height divided by it. *)
Theorem zoom_same_for_every_direction (zf : Q) (d : PanDirection) (p : Q)
    (r : DrawImageArgs) :
  zoom (mkKenBurns true zf d) p == 1 + (zf - 1) * p
  /\ zoom (mkKenBurns true zf d) 0 == 1
  /\ zoom (mkKenBurns true zf d) 1 == zf
  /\ sWidth (kenBurnsRect (mkKenBurns true zf d) p r)
     = sWidth r / zoom (mkKenBurns true zf d) p
  /\ sHeight (kenBurnsRect (mkKenBurns true zf d) p r)
     = sHeight r / zoom (mkKenBurns true zf d) p.
Proof.
  unfold zoom. cbn [zoomFactor].
  split; [reflexivity|]. split; [ring|]. split; [ring|].
  split; reflexivity.
Qed.

(** C3 as stated fails for 'zoom-out': with [zoomFactor = 1.15] the
    zoom is [1], not [zoomFactor], at progress [0], and [1.15], not [1],
    at progress [1]. *)
Lemma zoom_out_is_not_reversed :
  ~ zoom (mkKenBurns true (115 # 100) zoom_out) 0
    == zoomFactor (mkKenBurns true (115 # 100) zoom_out)
  /\ ~ zoom (mkKenBurns true (115 # 100) zoom_out) 1 == 1
  /\ zoom (mkKenBurns true (115 # 100) zoom_out) 0 == 1
  /\ zoom (mkKenBurns true (115 # 100) zoom_out) 1 == 115 # 100.
Proof.
  split; [|split; [|split]].
  - intro H. vm_compute in H. discriminate.
  - intro H. vm_compute in H. discriminate.
  - reflexivity.
  - reflexivity.
Qed.

(** C4 as stated fails: a 1920x1080 image on the 1280x720 canvas with
    the default zoom and 'pan-left', at the last frame of the image.  The
    source rectangle starts left of the image (no clamping is applied);
    with 'pan-down' the vertical offset, [192], exceeds a tenth of the
    source height, [108]. *)
Lemma pan_left_source_leaves_image :
  1 <= zoomFactor (kenBurns Examples.defaultSettings)
  /\ sx (applyKenBurnsAndDraw (Examples.photo "a" 1920 1080)
           (Examples.withPan pan_left Examples.defaultSettings) 1 1280 720)
     < 0
  /\ ~ sourceInImage (Examples.photo "a" 1920 1080)
         (applyKenBurnsAndDraw (Examples.photo "a" 1920 1080)
            (Examples.withPan pan_left Examples.defaultSettings) 1 1280 720)
  /\ sourceInImageb (Examples.photo "a" 1920 1080)
         (applyKenBurnsAndDraw (Examples.photo "a" 1920 1080)
            (Examples.withPan pan_left Examples.defaultSettings) 1 1280 720)
     = false
  /\ ~ Qabs (offsetY (kenBurns
                        (Examples.withPan pan_down Examples.defaultSettings))
               1920 1)
       <= (1 # 10) * 1080.
Proof.
  split; [|split; [|split; [|split]]].
  - vm_compute. discriminate.
  - reflexivity.
  - intros (H & _). vm_compute in H. apply H. reflexivity.
  - reflexivity.
  - intro H. vm_compute in H. apply H. reflexivity.
Qed.

(** C4, as the code has it.  The horizontal pan offset stays within a
    tenth of the source width, and when the direction is 'random',
    'zoom-in' or 'zoom-out' (no translation) the rectangle handed to
    [drawImage] lies within the image. *)
Theorem pan_offset_bound_and_centered_containment (img : UploadedImage)
    (s : EffectSettings) (p cw ch : Q) :
  0 < width img -> 0 < height img -> 0 < cw -> 0 < ch ->
  1 <= zoomFactor (kenBurns s) -> 0 <= p <= 1 ->
  Qabs (offsetX (kenBurns s)
          (sWidth (fitRect (width img) (height img) (imageFit s) cw ch)) p)
  <= (1 # 10) * sWidth (fitRect (width img) (height img) (imageFit s) cw ch)
  /\ (directional (panDirection (kenBurns s)) = false ->
      sourceInImage img (applyKenBurnsAndDraw img s p cw ch)).
Proof.
  intros Hw Hh Hcw Hch Hz [Hp0 Hp1].
  destruct (GeometryProps.fitRect_inside img (imageFit s) cw ch Hw Hh Hcw Hch)
    as (Hin & Hsw & Hsh).
  split.
  - apply (GeometryProps.offsets_le_maxPanOffset (kenBurns s) _ p Hsw).
    split; assumption.
  - intro Hd. unfold applyKenBurnsAndDraw.
    pose proof (GeometryProps.kenBurnsRect_inside (kenBurns s) p _
                  Hz Hp0 Hsw Hsh Hd) as Hk.
    unfold sourceInImage, inside in *.
    destruct Hin as (? & ? & ? & ?). destruct Hk as (? & ? & ? & ?).
    repeat split; lra.
Qed.

(** A 1920x1080 image on the default canvas with the default settings
    ('random'), half way through the image. *)
Lemma pan_offset_bound_and_centered_containment_witness :
  sourceInImage (Examples.photo "a" 1920 1080)
    (applyKenBurnsAndDraw (Examples.photo "a" 1920 1080)
       Examples.defaultSettings (1 # 2) 1280 720).
Proof.
  apply (pan_offset_bound_and_centered_containment
           (Examples.photo "a" 1920 1080) Examples.defaultSettings
           (1 # 2) 1280 720).
  - reflexivity.
  - reflexivity.
  - reflexivity.
  - reflexivity.
  - vm_compute. discriminate.
  - split; vm_compute; discriminate.
  - reflexivity.
Defined.

(** C9 as stated fails: 'random' resolves to no direction.  For the
    1920x1080 image with the default settings, the last frame under
    'random' is drawn with a source rectangle that differs from the one
    of each of the four pans, so no concrete pan direction is the one
    the frames of this image are drawn with. *)
Lemma random_resolves_no_direction :
  ~ RandomSpec.resolvedOncePerImage Examples.defaultSettings 1280 720.
Proof.
  intro H.
  destruct (H (Examples.photo "a" 1920 1080)) as (d & Hd & Hsame).
  assert (Hp : 0 <= 1 <= 1) by (split; discriminate).
  destruct (Hsame 1 Hp) as (Hx & Hy & _).
  destruct d; try discriminate Hd.
  - vm_compute in Hx. discriminate.
  - vm_compute in Hx. discriminate.
  - vm_compute in Hy. discriminate.
  - vm_compute in Hy. discriminate.
Qed.

(** C9, as the code has it.  Under 'random' nothing is resolved and
    the image's identifier is not read: two images of the same pixel
    size are drawn with the same rectangles whatever their [id] and
    [dataUrl], every frame has the pan offsets [0], and the rectangles
    are those of the centred zoom of 'zoom-in'.  So the motion of an
    image has no pan component at any frame, and none that could
    change direction. *)
Theorem random_applies_no_pan (s : EffectSettings)
    (id1 id2 url1 url2 : string) (w h p cw ch sw : Q) :
  applyKenBurnsAndDraw (mkUploadedImage id1 url1 w h)
    (Examples.withPan random s) p cw ch
  = applyKenBurnsAndDraw (mkUploadedImage id2 url2 w h)
      (Examples.withPan random s) p cw ch
  /\ offsetX (kenBurns (Examples.withPan random s)) sw p = 0
  /\ offsetY (kenBurns (Examples.withPan random s)) sw p = 0
  /\ applyKenBurnsAndDraw (mkUploadedImage id1 url1 w h)
       (Examples.withPan random s) p cw ch
     = applyKenBurnsAndDraw (mkUploadedImage id1 url1 w h)
         (Examples.withPan zoom_in s) p cw ch
  /\ sx (applyKenBurnsAndDraw (mkUploadedImage id1 url1 w h)
           (Examples.withPan random s) p cw ch)
     == sx (fitRect w h (imageFit s) cw ch)
        + (sWidth (fitRect w h (imageFit s) cw ch)
           - sWidth (applyKenBurnsAndDraw (mkUploadedImage id1 url1 w h)
                       (Examples.withPan random s) p cw ch)) / 2
  /\ sy (applyKenBurnsAndDraw (mkUploadedImage id1 url1 w h)
           (Examples.withPan random s) p cw ch)
     == sy (fitRect w h (imageFit s) cw ch)
        + (sHeight (fitRect w h (imageFit s) cw ch)
           - sHeight (applyKenBurnsAndDraw (mkUploadedImage id1 url1 w h)
                        (Examples.withPan random s) p cw ch)) / 2.
Proof.
  split; [reflexivity|]. split; [reflexivity|]. split; [reflexivity|].
  split; [reflexivity|].
  unfold applyKenBurnsAndDraw, kenBurnsRect.
  cbn [kenBurns Examples.withPan enabled imageFit width height].
  destruct (enabled (kenBurns s));
    cbn [sx sy sWidth sHeight]; split;
    try (unfold offsetX, offsetY;
         cbn [panDirection directional PanDirection_eqb negb andb]).
  all: first [ring | field].
Qed.

(** C10.  With Ken Burns enabled, 'random', 'zoom-in' and 'zoom-out'
    hand the same rectangles to [drawImage]: the fitted source
    rectangle divided by [zoom = 1 + (zoomFactor - 1) * p], with the
    same centre and no pan offset; the destination is the fitted one. *)
Theorem non_pan_directions_indistinguishable (img : UploadedImage)
    (D T zf w h : Q) (fit : ImageFit) (p : Q) :
  let s := fun d => mkEffectSettings D T (mkKenBurns true zf d) w h fit in
  let r := fitRect (width img) (height img) fit w h in
  let z := 1 + (zf - 1) * p in
  let a := applyKenBurnsAndDraw img (s zoom_in) p w h in
  applyKenBurnsAndDraw img (s random) p w h = a
  /\ applyKenBurnsAndDraw img (s zoom_out) p w h = a
  /\ sWidth a = sWidth r / z /\ sHeight a = sHeight r / z
  /\ sx a == sx r + (sWidth r - sWidth r / z) / 2
  /\ sy a == sy r + (sHeight r - sHeight r / z) / 2
  /\ sx a + sWidth a / 2 == sx r + sWidth r / 2
  /\ sy a + sHeight a / 2 == sy r + sHeight r / 2
  /\ offsetX (kenBurns (s random)) (sWidth r) p = 0
  /\ offsetX (kenBurns (s zoom_in)) (sWidth r) p = 0
  /\ offsetX (kenBurns (s zoom_out)) (sWidth r) p = 0
  /\ offsetY (kenBurns (s random)) (sWidth r) p = 0
  /\ offsetY (kenBurns (s zoom_in)) (sWidth r) p = 0
  /\ offsetY (kenBurns (s zoom_out)) (sWidth r) p = 0
  /\ (dx a, dy a, dWidth a, dHeight a) = (dx r, dy r, dWidth r, dHeight r).
Proof.
  intros s r z a.
  split; [reflexivity|]. split; [reflexivity|].
  split; [reflexivity|]. split; [reflexivity|].
  assert (Ex : sx a = sx r + (sWidth r - sWidth r / z) / 2 + 0)
    by reflexivity.
  assert (Ey : sy a = sy r + (sHeight r - sHeight r / z) / 2 + 0)
    by reflexivity.
  assert (Ew : sWidth a = sWidth r / z) by reflexivity.
  assert (Eh : sHeight a = sHeight r / z) by reflexivity.
  split; [rewrite Ex; ring|]. split; [rewrite Ey; ring|].
  split.
  { rewrite Ex, Ew. generalize (sWidth r / z). intro q. field. }
  split.
  { rewrite Ey, Eh. generalize (sHeight r / z). intro q. field. }
  repeat split; reflexivity.
Qed.

End KenBurnsProps.

(** ** Frame scheduler *)

Module SchedulerFacts.

Import Timeline Scheduler.

Section WithInputs.

Variable images : list UploadedImage.
Variable settings : EffectSettings.

Hypothesis some_image : (0 < List.length images)%nat.

(** The index of a resolved frame is a valid index of [imageElements]. *)
Lemma resolve_index_range (t : Q) (idx : Z) (tm : Q) :
  resolve settings (List.length images) t = FrameAt idx tm ->
  (0 <= idx < Z.of_nat (List.length images))%Z.
Proof using some_image.
  unfold resolve.
  destruct (scan settings (List.length images) t) as [[i tm']|] eqn:E.
  - intro H. inversion H; subst.
    unfold scan in E. apply TimelineFacts.scanFrom_Some in E. lia.
  - destruct (Num.geb t (Timeline.totalDuration settings (List.length images)));
      [discriminate|].
    intro H. inversion H; subst. lia.
Qed.

(** Every resolved frame is painted: no element read is [undefined]. *)
Lemma compose_resolved (t : Q) (idx : Z) (tm : Q) :
  resolve settings (List.length images) t = FrameAt idx tm ->
  exists ops, Compositor.compose images settings idx tm = Some ops.
Proof using some_image.
  intro H. apply resolve_index_range in H.
  destruct (CrossfadeProps.imageElement_in_range images idx H) as [img Himg].
  unfold Compositor.compose. rewrite Himg.
  destruct (Compositor.fadingOut images settings idx tm) eqn:F.
  - unfold Compositor.fadingOut in F. apply andb_true_iff in F.
    destruct F as [_ F]. apply Z.ltb_lt in F.
    destruct (CrossfadeProps.imageElement_in_range images (idx + 1))
      as [nx Hnx]; [lia|].
    rewrite Hnx. eexists. reflexivity.
  - eexists. reflexivity.
Qed.

(** Before [totalDuration] the timeline does not end. *)
Lemma resolve_before_end (t : Q) :
  t < Scheduler.totalDuration images settings ->
  exists idx tm, resolve settings (List.length images) t = FrameAt idx tm.
Proof.
  intro Ht. unfold resolve.
  destruct (scan settings (List.length images) t) as [[i tm']|].
  - eexists _, _. reflexivity.
  - apply NumFacts.geb_lt in Ht. unfold Scheduler.totalDuration in Ht.
    rewrite Ht. eexists _, _. reflexivity.
Qed.


End WithInputs.


End SchedulerFacts.

Module SchedulerProps.

Import Scheduler.



End SchedulerProps.

(** ** Precondition checks of [generateVideo] *)

Module GeneratorProps.

Import Generator.

(** C7, as the code has it.  With no image [generateVideo] returns at
    its first check: an error is reported, nothing is allocated and the
    session does not start.  The settings are examined by no check: with
    an image and a [MediaRecorder], the canvas is created and the
    session is put in the generating state whatever the durations and
    the output dimensions are. *)
Theorem only_missing_images_rejected (b : Browser) (s : EffectSettings)
    (img : UploadedImage) (rest : list UploadedImage)
    (mp4 webm ctx throws loads : bool) :
  snd (generateVideo b [] s) = Rejected
  /\ existsb reportsError (fst (generateVideo b [] s)) = true
  /\ existsb allocates (fst (generateVideo b [] s)) = false
  /\ existsb entersRunning (fst (generateVideo b [] s)) = false
  /\ existsb allocates
       (fst (generateVideo (mkBrowser true mp4 webm ctx throws loads)
               (img :: rest) s)) = true
  /\ existsb entersRunning
       (fst (generateVideo (mkBrowser true mp4 webm ctx throws loads)
               (img :: rest) s)) = true
  /\ snd (generateVideo (mkBrowser true mp4 webm ctx throws loads)
            (img :: rest) s) <> Rejected.
Proof.
  split; [reflexivity|]. split; [reflexivity|].
  split; [reflexivity|]. split; [reflexivity|].
  unfold generateVideo. cbn [List.length Nat.eqb mediaRecorderDefined negb
                             contextAvailable recorderInitThrows imagesLoad].
  destruct ctx, throws, loads; cbn; repeat split; discriminate || reflexivity.
Qed.

(** C7 as stated fails: three photos, [durationPerImage = 1] and
    [transitionDuration = 5] (both within the ranges of the settings
    form), or a zero duration, or a zero output width.  Each is a
    precondition error, yet the canvas, the stream and the recorder are
    created, no error is reported and the session runs. *)
Lemma bad_settings_not_rejected :
  (Generator.preconditionError Examples.threePhotos
     (Examples.withDurations 1 5 Examples.defaultSettings) = true
   /\ generateVideo Examples.goodBrowser Examples.threePhotos
        (Examples.withDurations 1 5 Examples.defaultSettings)
      = ([Cleanup; SetIsGenerating true; SetError None;
          SetProgress (Scheduler.mkProgress 0 Scheduler.Initializing);
          SetGeneratedMimeType MIME_TYPE_MP4; CreateCanvas 1280 720;
          CaptureStream 30; NewMediaRecorder MIME_TYPE_MP4; RecorderStart;
          LoadImages 3; RequestAnimationFrame],
         Running Scheduler.started))
  /\ (Generator.preconditionError Examples.threePhotos
        (Examples.withDurations 0 0 Examples.defaultSettings) = true
      /\ existsb allocates
           (fst (generateVideo Examples.goodBrowser Examples.threePhotos
                   (Examples.withDurations 0 0 Examples.defaultSettings)))
         = true
      /\ existsb reportsError
           (fst (generateVideo Examples.goodBrowser Examples.threePhotos
                   (Examples.withDurations 0 0 Examples.defaultSettings)))
         = false)
  /\ (Generator.preconditionError Examples.threePhotos
        (mkEffectSettings 5 1 Examples.defaultKenBurns 0 720 cover) = true
      /\ snd (generateVideo Examples.goodBrowser Examples.threePhotos
                (mkEffectSettings 5 1 Examples.defaultKenBurns 0 720 cover))
         = Running Scheduler.started).
Proof. repeat split; reflexivity. Qed.

End GeneratorProps.

(** ** Further properties of the timeline *)

Module TimelineOrder.

Import Timeline.

Section WellFormed.

Variable settings : EffectSettings.
Variable len : nat.

Hypothesis duration_pos : 0 < durationPerImage settings.
Hypothesis transition_nonneg : 0 <= transitionDuration settings.
Hypothesis transition_lt : transitionDuration settings < durationPerImage settings.

Lemma start_nonneg (i : nat) : 0 <= imageDisplayStartTime settings i.
Proof using duration_pos transition_nonneg transition_lt.
  destruct i as [|i].
  - rewrite ResolveFacts.start_0. lra.
  - rewrite ResolveFacts.start_S.
    assert (0 <= ofnat i) by apply ofnat_nonneg. nra.
Qed.

(** Windows start in index order. *)
Lemma start_mono (i j : nat) :
  (i <= j)%nat ->
  imageDisplayStartTime settings i <= imageDisplayStartTime settings j.
Proof using duration_pos transition_nonneg transition_lt.
  intro H. destruct i as [|i].
  - rewrite ResolveFacts.start_0. apply start_nonneg.
  - destruct j as [|j]; [lia|]. rewrite !ResolveFacts.start_S.
    assert (ofnat i <= ofnat j) by (apply ofnat_le; lia). nra.
Qed.

(** A non-negative time below the end of window [i] is in one of the
    windows up to [i]. *)
Lemma covered_below_end (t : Q) (i : nat) :
  (i < len)%nat -> 0 <= t -> t < imageDisplayEndTime settings len i ->
  exists j, (j <= i)%nat /\ inWindow settings len t j = true.
Proof using duration_pos transition_nonneg transition_lt.
  induction i as [|i IH]; intros Hi Ht He.
  - exists 0%nat. split; [lia|]. apply TimelineFacts.inWindow_iff.
    rewrite ResolveFacts.start_0. split; assumption.
  - destruct (Qlt_le_dec t (imageDisplayStartTime settings (S i))) as [Hlt|Hge].
    + destruct IH as (j & Hj & Hw); [lia | assumption | |].
      * apply Qlt_le_trans with (imageDisplayStartTime settings (S i));
          [assumption|].
        apply CoverageProps.windows_contiguous; assumption.
      * exists j. split; [lia | assumption].
    + exists (S i). split; [lia|]. apply TimelineFacts.inWindow_iff.
      split; assumption.
Qed.

(** End of the last window, in closed form. *)
Lemma last_end (n : nat) :
  len = S n ->
  imageDisplayEndTime settings len n
  == ofnat len * durationPerImage settings
     - (if (1 <? len)%nat then transitionDuration settings else 0).
Proof.
  intros ->. rewrite ResolveFacts.end_last by lia.
  destruct n as [|n].
  - rewrite ResolveFacts.start_0. cbn [Nat.ltb Nat.leb].
    assert (H : ofnat 1 == 1) by reflexivity. rewrite H. ring.
  - rewrite ResolveFacts.start_S. cbn [Nat.ltb Nat.leb].
    rewrite (ofnat_S (S n)), (ofnat_S n). ring.
Qed.

End WellFormed.

(** X1.  Before the end of the last window the scan always finds a
    window: every time in
    [[0, len * durationPerImage - (len > 1 ? transitionDuration : 0))]
    resolves to an image whose window holds it, never to the end of the
    timeline and never to the fallback. *)
Theorem scan_finds_window (settings : EffectSettings) (len : nat) (t : Q) :
  0 < durationPerImage settings ->
  0 <= transitionDuration settings ->
  transitionDuration settings < durationPerImage settings ->
  0 <= t ->
  t < ofnat len * durationPerImage settings
      - (if (1 <? len)%nat then transitionDuration settings else 0) ->
  exists i,
    (i < len)%nat
    /\ inWindow settings len t i = true
    /\ resolve settings len t
       = FrameAt (Z.of_nat i) (t - imageDisplayStartTime settings i).
Proof.
  intros HD HT0 HTD Ht0 Ht1.
  destruct len as [|n].
  { exfalso. simpl in Ht1. assert (H : ofnat 0 == 0) by reflexivity.
    rewrite H in Ht1. lra. }
  rewrite <- (last_end settings (S n) n eq_refl) in Ht1.
  destruct (covered_below_end settings (S n) HD HT0 HTD t n) as (j & Hj & Hw);
    [lia | assumption | assumption |].
  unfold resolve.
  destruct (scan settings (S n) t) as [[i tm]|] eqn:E.
  - unfold scan in E. apply TimelineFacts.scanFrom_Some in E.
    destruct E as (Hr & Hwi & _ & ->).
    exists i. split; [lia|]. split; [assumption | reflexivity].
  - unfold scan in E.
    rewrite (proj1 (TimelineFacts.scanFrom_None settings (S n) t (S n) 0) E j)
      in Hw by lia.
    discriminate.
Qed.

Lemma scan_finds_window_witness :
  exists i,
    (i < 3)%nat
    /\ inWindow Examples.defaultSettings 3 (27 # 2) i = true
    /\ resolve Examples.defaultSettings 3 (27 # 2)
       = FrameAt (Z.of_nat i)
           ((27 # 2) - imageDisplayStartTime Examples.defaultSettings i).
Proof.
  apply scan_finds_window.
  - reflexivity.
  - discriminate.
  - reflexivity.
  - discriminate.
  - reflexivity.
Defined.

(** X2.  Images are shown in list order: for two times [0 <= t1 <= t2]
    the image index resolved at [t2] is not smaller than the one
    resolved at [t1]. *)
Theorem resolved_index_monotone (settings : EffectSettings) (len : nat)
    (t1 t2 : Q) (i1 i2 : Z) (tm1 tm2 : Q) :
  0 < durationPerImage settings ->
  0 <= transitionDuration settings ->
  transitionDuration settings < durationPerImage settings ->
  0 <= t1 -> t1 <= t2 ->
  resolve settings len t1 = FrameAt i1 tm1 ->
  resolve settings len t2 = FrameAt i2 tm2 ->
  (i1 <= i2)%Z.
Proof.
  intros HD HT0 HTD Ht1 Hle. unfold resolve.
  destruct (scan settings len t1) as [[a ta]|] eqn:E1;
    destruct (scan settings len t2) as [[b tb]|] eqn:E2.
  - intros H1 H2. inversion H1; inversion H2; subst.
    unfold scan in E1, E2.
    apply TimelineFacts.scanFrom_Some in E1, E2.
    destruct E1 as (Ra & Wa & Fa & _). destruct E2 as (Rb & Wb & _ & _).
    destruct (Nat.le_gt_cases a b) as [|Hlt]; [lia|]. exfalso.
    assert (Hn : inWindow settings len t1 b = false) by (apply Fa; lia).
    apply TimelineFacts.inWindow_iff in Wa, Wb.
    assert (Hn' : ~ (imageDisplayStartTime settings b <= t1
                     /\ t1 < imageDisplayEndTime settings len b)).
    { rewrite <- TimelineFacts.inWindow_iff. congruence. }
    pose proof (start_mono settings HD HT0 HTD b a ltac:(lia)).
    apply Hn'. split; lra.
  - intros H1 H2. inversion H1; subst.
    unfold scan in E1. apply TimelineFacts.scanFrom_Some in E1.
    destruct (Num.geb t2 (totalDuration settings len)); [discriminate|].
    inversion H2; subst. lia.
  - intros H1 H2.
    destruct (Num.geb t1 (totalDuration settings len)); [discriminate|].
    inversion H1; inversion H2; subst.
    unfold scan in E1, E2. apply TimelineFacts.scanFrom_Some in E2.
    destruct E2 as (Rb & Wb & _ & _).
    apply TimelineFacts.inWindow_iff in Wb. exfalso.
    destruct (Qlt_le_dec t1 (imageDisplayEndTime settings len b)) as [Hlt|Hge];
      [|lra].
    destruct (covered_below_end settings len HD HT0 HTD t1 b)
      as (j & Hj & Hw); [lia | assumption | assumption |].
    rewrite (proj1 (TimelineFacts.scanFrom_None settings len t1 len 0) E1 j)
      in Hw by lia.
    discriminate.
  - intros H1 H2.
    destruct (Num.geb t1 (totalDuration settings len)); [discriminate|].
    destruct (Num.geb t2 (totalDuration settings len)); [discriminate|].
    inversion H1; inversion H2; subst. lia.
Qed.

Lemma resolved_index_monotone_witness : (0 <= 1)%Z.
Proof.
  apply (resolved_index_monotone Examples.defaultSettings 3 (11 # 2) 7
           0 1 ((11 # 2) - imageDisplayStartTime Examples.defaultSettings 0)
           (7 - imageDisplayStartTime Examples.defaultSettings 1)).
  - reflexivity.
  - discriminate.
  - reflexivity.
  - discriminate.
  - discriminate.
  - reflexivity.
  - reflexivity.
Defined.

End TimelineOrder.

(** ** Further properties of the painted frame *)

Module FrameProps.

Import Timeline Compositor.




(** X4.  The Ken Burns progress of the current image is
    [timeIntoCurrentImage / durationPerImage] up to the image's
    duration and stays at [1] during its fade-out: it is always in
    [[0, 1]]. *)
Theorem progress_in_unit_interval (settings : EffectSettings) (len : nat)
    (t : Q) (idx : Z) (tm : Q) :
  0 < durationPerImage settings ->
  0 <= transitionDuration settings ->
  transitionDuration settings < durationPerImage settings ->
  (0 < len)%nat ->
  resolve settings len t = FrameAt idx tm ->
  0 <= progressInImage settings tm <= 1
  /\ (tm <= durationPerImage settings ->
      progressInImage settings tm == tm / durationPerImage settings)
  /\ (durationPerImage settings <= tm -> progressInImage settings tm == 1).
Proof.
  intros HD HT0 HTD Hlen Hres.
  destruct (ResolveFacts.resolve_bound settings len HD HT0 HTD t idx tm
              Hlen Hres) as (_ & Htm & _ & _).
  assert (Hq0 : 0 <= tm / durationPerImage settings)
    by (apply Qle_shift_div_l; [assumption | lra]).
  unfold progressInImage.
  destruct (NumFacts.min_spec 1 (tm / durationPerImage settings))
    as [[Hle ->]|[Hlt ->]].
  - assert (Hge : durationPerImage settings <= tm).
    { apply Qnot_lt_le. intro Hc.
      assert (tm / durationPerImage settings < 1)
        by (apply Qlt_shift_div_r; [assumption | lra]).
      lra. }
    split; [split; lra|]. split.
    + intro Hle'.
      assert (E : tm == durationPerImage settings) by lra.
      rewrite E. field. lra.
    + intros _. reflexivity.
  - split; [split; lra|]. split.
    + intros _. reflexivity.
    + intro Hge. exfalso.
      assert (1 <= tm / durationPerImage settings)
        by (apply Qle_shift_div_l; [assumption | lra]).
      lra.
Qed.

Lemma progress_in_unit_interval_witness :
  0 <= progressInImage Examples.defaultSettings (11 # 2) <= 1.
Proof.
  apply (progress_in_unit_interval Examples.defaultSettings 3
           (11 # 2) 0 (11 # 2)).
  - reflexivity.
  - discriminate.
  - reflexivity.
  - lia.
  - reflexivity.
Defined.

(** X5.  With [transitionDuration = 0] no frame is a crossfade: every
    resolved frame clears the canvas and paints exactly one image, at
    alpha [1]. *)
Theorem no_transition_single_draw (images : list UploadedImage)
    (settings : EffectSettings) (t : Q) (idx : Z) (tm : Q) :
  0 < durationPerImage settings ->
  transitionDuration settings == 0 ->
  (0 < List.length images)%nat ->
  resolve settings (List.length images) t = FrameAt idx tm ->
  exists img,
    imageElement images idx = Some img
    /\ compose images settings idx tm
       = Some [FillRect 0 0 (videoWidth settings) (videoHeight settings);
               DrawImage img 1
                 (Geometry.applyKenBurnsAndDraw img settings
                    (progressInImage settings tm)
                    (videoWidth settings) (videoHeight settings))].
Proof.
  intros HD HT Hlen Hres.
  assert (HT0 : 0 <= transitionDuration settings) by lra.
  assert (HTD : transitionDuration settings < durationPerImage settings)
    by lra.
  destruct (ResolveFacts.resolve_bound settings (List.length images)
              HD HT0 HTD t idx tm Hlen Hres) as (Hidx & _ & Hin & Hout).
  assert (Hf : fadingOut images settings idx tm = false).
  { unfold fadingOut.
    destruct (Num.gtb tm (durationPerImage settings)) eqn:E; [|reflexivity].
    apply NumFacts.gtb_gt in E. destruct (Hout E) as (_ & Hpos & _).
    exfalso. lra. }
  assert (Hi : fadingIn settings idx tm = false).
  { eapply CrossfadeProps.resolved_never_fades_in; eassumption. }
  destruct (CrossfadeProps.imageElement_in_range images idx Hidx)
    as [img Himg].
  exists img. split; [exact Himg|].
  unfold compose, alpha. rewrite Himg, Hf, Hi. reflexivity.
Qed.

Lemma no_transition_single_draw_witness :
  exists img,
    imageElement Examples.threePhotos 1 = Some img
    /\ compose Examples.threePhotos
         (Examples.withDurations 5 0 Examples.defaultSettings) 1 (7 - 5)
       = Some [FillRect 0 0 1280 720;
               DrawImage img 1
                 (Geometry.applyKenBurnsAndDraw img
                    (Examples.withDurations 5 0 Examples.defaultSettings)
                    (progressInImage
                       (Examples.withDurations 5 0 Examples.defaultSettings)
                       (7 - 5))
                    1280 720)].
Proof.
  apply (no_transition_single_draw Examples.threePhotos
           (Examples.withDurations 5 0 Examples.defaultSettings) 7 1 (7 - 5)).
  - reflexivity.
  - reflexivity.
  - simpl. lia.
  - reflexivity.
Defined.

(** X6.  A single image is never crossfaded, whatever the settings:
    every resolved frame has index [0] and paints that image once at
    alpha [1]. *)
Theorem single_image_single_draw (img : UploadedImage)
    (settings : EffectSettings) (t : Q) (idx : Z) (tm : Q) :
  resolve settings 1 t = FrameAt idx tm ->
  idx = 0%Z
  /\ compose [img] settings idx tm
     = Some [FillRect 0 0 (videoWidth settings) (videoHeight settings);
             DrawImage img 1
               (Geometry.applyKenBurnsAndDraw img settings
                  (progressInImage settings tm)
                  (videoWidth settings) (videoHeight settings))].
Proof.
  intro Hres.
  assert (Hidx : idx = 0%Z).
  { unfold resolve in Hres.
    destruct (scan settings 1 t) as [[i tm']|] eqn:E.
    - inversion Hres; subst. unfold scan in E.
      apply TimelineFacts.scanFrom_Some in E. lia.
    - destruct (Num.geb t (totalDuration settings 1)); [discriminate|].
      inversion Hres; subst. reflexivity. }
  subst idx. split; [reflexivity|].
  unfold compose, alpha, fadingOut, fadingIn.
  cbn [imageElement Z.ltb Z.compare Z.to_nat nth_error List.length
       Z.of_nat Z.sub Z.add Z.opp Z.pos_sub Pos.of_succ_nat].
  rewrite !andb_false_r. reflexivity.
Qed.

Lemma single_image_single_draw_witness :
  compose [Examples.photo "a" 1920 1080] Examples.defaultSettings 0 (3 - 0)
  = Some [FillRect 0 0 1280 720;
          DrawImage (Examples.photo "a" 1920 1080) 1
            (Geometry.applyKenBurnsAndDraw (Examples.photo "a" 1920 1080)
               Examples.defaultSettings
               (progressInImage Examples.defaultSettings (3 - 0))
               1280 720)].
Proof.
  apply (single_image_single_draw (Examples.photo "a" 1920 1080)
           Examples.defaultSettings 3 0 (3 - 0)).
  reflexivity.
Defined.



End FrameProps.

(** ** Further properties of the fit and of the Ken Burns rectangles *)

Module FitProps.

Import Geometry.

(** The rectangles of the fit have one aspect ratio. *)
Lemma fitRect_aspect (imgW imgH : Q) (fit : ImageFit) (cw ch : Q) :
  0 < imgW -> 0 < imgH -> 0 < cw -> 0 < ch ->
  sWidth (fitRect imgW imgH fit cw ch) * dHeight (fitRect imgW imgH fit cw ch)
  == sHeight (fitRect imgW imgH fit cw ch)
     * dWidth (fitRect imgW imgH fit cw ch).
Proof.
  intros Hw Hh Hcw Hch. unfold fitRect.
  destruct fit; destruct (Num.gtb (imgW / imgH) (cw / ch));
    cbn [sWidth sHeight dWidth dHeight]; field; lra.
Qed.

(** X8.  'cover': the destination is the whole canvas; the source
    rectangle has the canvas's aspect ratio, is centred in the image,
    lies within it and spans the image's full width or full height. *)
Theorem cover_fit (imgW imgH cw ch : Q) :
  0 < imgW -> 0 < imgH -> 0 < cw -> 0 < ch ->
  let r := fitRect imgW imgH cover cw ch in
  (dx r, dy r, dWidth r, dHeight r) = (0, 0, cw, ch)
  /\ sWidth r * ch == sHeight r * cw
  /\ sx r + sWidth r / 2 == imgW / 2
  /\ sy r + sHeight r / 2 == imgH / 2
  /\ inside (sx r) (sy r) (sWidth r) (sHeight r) 0 0 imgW imgH
  /\ (sWidth r == imgW \/ sHeight r == imgH).
Proof.
  intros Hw Hh Hcw Hch r. subst r. unfold fitRect, inside.
  assert (Ha : 0 < cw / ch) by (apply Qlt_shift_div_l; lra).
  assert (Er : imgW / imgH * imgH == imgW) by (field; lra).
  destruct (Num.gtb (imgW / imgH) (cw / ch)) eqn:E;
    cbn [sx sy sWidth sHeight dx dy dWidth dHeight].
  - apply NumFacts.gtb_gt in E.
    split; [reflexivity|]. split; [field; lra|].
    split; [field; lra|]. split; [field|].
    assert (E1 : imgH * (cw / ch) < imgW) by nra.
    set (q := imgH * (cw / ch)) in *.
    assert (Eh : (imgW - q) / 2 == (1 # 2) * (imgW - q)) by field.
    rewrite Eh. split; [|right; reflexivity]. repeat split; nra.
  - apply NumFacts.gtb_le in E.
    split; [reflexivity|]. split; [field; lra|].
    split; [field|]. split; [field; lra|].
    assert (Eq : imgW / (cw / ch) * (cw / ch) == imgW) by (field; lra).
    set (a := cw / ch) in *. set (q := imgW / a) in *.
    assert (q <= imgH) by nra. assert (0 <= q) by nra.
    assert (Eh : (imgH - q) / 2 == (1 # 2) * (imgH - q)) by field.
    rewrite Eh. split; [|left; reflexivity]. repeat split; nra.
Qed.

Lemma cover_fit_witness :
  sWidth (fitRect 1600 1200 cover 1280 720) * 720
  == sHeight (fitRect 1600 1200 cover 1280 720) * 1280.
Proof.
  apply (cover_fit 1600 1200 1280 720); reflexivity.
Defined.

(** X9.  'contain': the source is the whole image; the destination has
    the image's aspect ratio, is centred in the canvas, lies within it
    and spans the canvas's full width or full height. *)
Theorem contain_fit (imgW imgH cw ch : Q) :
  0 < imgW -> 0 < imgH -> 0 < cw -> 0 < ch ->
  let r := fitRect imgW imgH contain cw ch in
  (sx r, sy r, sWidth r, sHeight r) = (0, 0, imgW, imgH)
  /\ dWidth r * imgH == dHeight r * imgW
  /\ dx r + dWidth r / 2 == cw / 2
  /\ dy r + dHeight r / 2 == ch / 2
  /\ inside (dx r) (dy r) (dWidth r) (dHeight r) 0 0 cw ch
  /\ (dWidth r == cw \/ dHeight r == ch).
Proof.
  intros Hw Hh Hcw Hch r. subst r. unfold fitRect, inside.
  assert (Hr : 0 < imgW / imgH) by (apply Qlt_shift_div_l; lra).
  assert (Ea : cw / ch * ch == cw) by (field; lra).
  destruct (Num.gtb (imgW / imgH) (cw / ch)) eqn:E;
    cbn [sx sy sWidth sHeight dx dy dWidth dHeight].
  - apply NumFacts.gtb_gt in E.
    split; [reflexivity|]. split; [field; lra|].
    split; [field|]. split; [field; lra|].
    assert (Eq : cw / (imgW / imgH) * (imgW / imgH) == cw) by (field; lra).
    set (a := cw / ch) in *. set (k := imgW / imgH) in *.
    set (q := cw / k) in *.
    assert (q <= ch) by nra. assert (0 <= q) by nra.
    assert (Eh : (ch - q) / 2 == (1 # 2) * (ch - q)) by field.
    rewrite Eh. split; [|left; reflexivity]. repeat split; nra.
  - apply NumFacts.gtb_le in E.
    split; [reflexivity|]. split; [field; lra|].
    split; [field; lra|]. split; [field|].
    set (a := cw / ch) in *. set (k := imgW / imgH) in *.
    assert (ch * k <= cw) by nra.
    set (q := ch * k) in *.
    assert (0 <= q) by (unfold q; nra).
    assert (Eh : (cw - q) / 2 == (1 # 2) * (cw - q)) by field.
    rewrite Eh. split; [|right; reflexivity]. repeat split; nra.
Qed.

Lemma contain_fit_witness :
  dWidth (fitRect 1080 1920 contain 1280 720) * 1920
  == dHeight (fitRect 1080 1920 contain 1280 720) * 1080.
Proof.
  apply (contain_fit 1080 1920 1280 720); reflexivity.
Defined.

(** X10.  No frame distorts an image: for both fit modes, every pan
    direction and every progress, source and destination of
    [drawImage] have the same aspect ratio. *)
Theorem draw_keeps_aspect (img : UploadedImage) (s : EffectSettings)
    (p cw ch : Q) :
  0 < width img -> 0 < height img -> 0 < cw -> 0 < ch ->
  sWidth (applyKenBurnsAndDraw img s p cw ch)
  * dHeight (applyKenBurnsAndDraw img s p cw ch)
  == sHeight (applyKenBurnsAndDraw img s p cw ch)
     * dWidth (applyKenBurnsAndDraw img s p cw ch).
Proof.
  intros Hw Hh Hcw Hch.
  pose proof (fitRect_aspect (width img) (height img) (imageFit s) cw ch
                Hw Hh Hcw Hch) as Hfit.
  unfold applyKenBurnsAndDraw, kenBurnsRect.
  destruct (enabled (kenBurns s)); [|exact Hfit].
  cbn [sWidth sHeight dWidth dHeight].
  unfold Qdiv.
  set (r := fitRect (width img) (height img) (imageFit s) cw ch) in *.
  set (iz := / zoom (kenBurns s) p).
  transitivity (sWidth r * dHeight r * iz); [ring|].
  rewrite Hfit. ring.
Qed.

Lemma draw_keeps_aspect_witness :
  sWidth (applyKenBurnsAndDraw (Examples.photo "b" 1600 1200)
            (Examples.withPan pan_left Examples.defaultSettings)
            (1 # 2) 1280 720)
  * dHeight (applyKenBurnsAndDraw (Examples.photo "b" 1600 1200)
               (Examples.withPan pan_left Examples.defaultSettings)
               (1 # 2) 1280 720)
  == sHeight (applyKenBurnsAndDraw (Examples.photo "b" 1600 1200)
                (Examples.withPan pan_left Examples.defaultSettings)
                (1 # 2) 1280 720)
     * dWidth (applyKenBurnsAndDraw (Examples.photo "b" 1600 1200)
                 (Examples.withPan pan_left Examples.defaultSettings)
                 (1 # 2) 1280 720).
Proof.
  apply (draw_keeps_aspect (Examples.photo "b" 1600 1200)
           (Examples.withPan pan_left Examples.defaultSettings)
           (1 # 2) 1280 720); reflexivity.
Defined.

End FitProps.

Module KenBurnsMotion.

Import Geometry.

(** Dividing by a larger zoom gives a smaller length. *)
Lemma shrink_antitone (w z1 z2 : Q) :
  0 <= w -> 1 <= z1 -> z1 <= z2 -> w / z2 <= w / z1.
Proof.
  intros Hw H1 H12.
  assert (E1 : w / z1 * z1 == w) by (field; lra).
  assert (E2 : w / z2 * z2 == w) by (field; lra).
  destruct (GeometryProps.shrink_bounds w z1 Hw H1) as [Hn1 _].
  destruct (GeometryProps.shrink_bounds w z2 Hw ltac:(lra)) as [Hn2 _].
  set (n1 := w / z1) in *. set (n2 := w / z2) in *.
  apply Qnot_lt_le. intro Hc. nra.
Qed.

(** X11.  At progress [0] the Ken Burns block changes nothing, for
    every pan direction: the rectangles are those of the fit.  This is
    how the incoming image of a crossfade is painted. *)
Theorem progress_zero_is_fit (img : UploadedImage) (s : EffectSettings)
    (cw ch : Q) :
  let a := applyKenBurnsAndDraw img s 0 cw ch in
  let r := fitRect (width img) (height img) (imageFit s) cw ch in
  sx a == sx r /\ sy a == sy r
  /\ sWidth a == sWidth r /\ sHeight a == sHeight r
  /\ (dx a, dy a, dWidth a, dHeight a) = (dx r, dy r, dWidth r, dHeight r).
Proof.
  intros a r. subst a. unfold applyKenBurnsAndDraw. fold r.
  unfold kenBurnsRect. destruct (enabled (kenBurns s));
    [|repeat split; reflexivity].
  cbn [sx sy sWidth sHeight dx dy dWidth dHeight].
  assert (Ez : zoom (kenBurns s) 0 == 1) by (unfold zoom; ring).
  assert (Ex : offsetX (kenBurns s) (sWidth r) 0 == 0).
  { unfold offsetX. destruct (directional (panDirection (kenBurns s)));
      [|reflexivity].
    cbv zeta.
    destruct (PanDirection_eqb (panDirection (kenBurns s)) pan_right),
             (PanDirection_eqb (panDirection (kenBurns s)) pan_left); ring. }
  assert (Ey : offsetY (kenBurns s) (sWidth r) 0 == 0).
  { unfold offsetY. destruct (directional (panDirection (kenBurns s)));
      [|reflexivity].
    cbv zeta.
    destruct (PanDirection_eqb (panDirection (kenBurns s)) pan_down),
             (PanDirection_eqb (panDirection (kenBurns s)) pan_up); ring. }
  rewrite Ex, Ey, Ez.
  split; [field|]. split; [field|]. split; [field|]. split; [field|].
  reflexivity.
Qed.

(** X12.  The zoom stays between [1] and [zoomFactor], so the source
    rectangle is never larger than the fitted one and never smaller
    than the fitted one divided by [zoomFactor]. *)
Theorem zoom_bounded (kb : KenBurns) (p : Q) (r : DrawImageArgs) :
  1 <= zoomFactor kb -> 0 <= p <= 1 ->
  0 <= sWidth r -> 0 <= sHeight r ->
  1 <= zoom kb p <= zoomFactor kb
  /\ sWidth r / zoomFactor kb <= sWidth (kenBurnsRect kb p r) <= sWidth r
  /\ sHeight r / zoomFactor kb <= sHeight (kenBurnsRect kb p r) <= sHeight r.
Proof.
  intros Hz [Hp0 Hp1] Hw Hh.
  assert (Hz1 : 1 <= zoom kb p) by (apply GeometryProps.zoom_ge_1; assumption).
  assert (Hz2 : zoom kb p <= zoomFactor kb) by (unfold zoom; nra).
  split; [split; assumption|].
  unfold kenBurnsRect. destruct (enabled kb); cbn [sWidth sHeight].
  - split; split.
    + apply shrink_antitone; assumption.
    + apply GeometryProps.shrink_bounds; assumption.
    + apply shrink_antitone; assumption.
    + apply GeometryProps.shrink_bounds; assumption.
  - destruct (GeometryProps.shrink_bounds (sWidth r) (zoomFactor kb) Hw Hz).
    destruct (GeometryProps.shrink_bounds (sHeight r) (zoomFactor kb) Hh Hz).
    split; split; lra.
Qed.

Lemma zoom_bounded_witness :
  1 <= zoom Examples.defaultKenBurns (1 # 2)
    <= zoomFactor Examples.defaultKenBurns.
Proof.
  apply (zoom_bounded Examples.defaultKenBurns (1 # 2)
           (fitRect 1920 1080 cover 1280 720)).
  - discriminate.
  - split; discriminate.
  - discriminate.
  - discriminate.
Defined.

(** X13.  With 'random', 'zoom-in' or 'zoom-out' the motion only goes
    inwards: the source rectangle of a later progress lies within the
    one of an earlier progress. *)
Theorem centered_zoom_nested (img : UploadedImage) (s : EffectSettings)
    (p1 p2 cw ch : Q) :
  0 < width img -> 0 < height img -> 0 < cw -> 0 < ch ->
  1 <= zoomFactor (kenBurns s) -> 0 <= p1 -> p1 <= p2 ->
  directional (panDirection (kenBurns s)) = false ->
  inside (sx (applyKenBurnsAndDraw img s p2 cw ch))
         (sy (applyKenBurnsAndDraw img s p2 cw ch))
         (sWidth (applyKenBurnsAndDraw img s p2 cw ch))
         (sHeight (applyKenBurnsAndDraw img s p2 cw ch))
         (sx (applyKenBurnsAndDraw img s p1 cw ch))
         (sy (applyKenBurnsAndDraw img s p1 cw ch))
         (sWidth (applyKenBurnsAndDraw img s p1 cw ch))
         (sHeight (applyKenBurnsAndDraw img s p1 cw ch)).
Proof.
  intros Hw Hh Hcw Hch Hz Hp1 Hp12 Hd.
  destruct (GeometryProps.fitRect_inside img (imageFit s) cw ch Hw Hh Hcw Hch)
    as (_ & Hsw & Hsh).
  unfold applyKenBurnsAndDraw, kenBurnsRect, inside.
  set (r := fitRect (width img) (height img) (imageFit s) cw ch) in *.
  destruct (enabled (kenBurns s)); [|repeat split; lra].
  cbn [sx sy sWidth sHeight].
  rewrite !(GeometryProps.offsetX_non_directional _ _ _ Hd),
          !(GeometryProps.offsetY_non_directional _ _ _ Hd).
  assert (Hz1 : 1 <= zoom (kenBurns s) p1)
    by (apply GeometryProps.zoom_ge_1; assumption).
  assert (Hz12 : zoom (kenBurns s) p1 <= zoom (kenBurns s) p2)
    by (apply KenBurnsProps.zoom_monotone; assumption).
  pose proof (shrink_antitone (sWidth r) _ _ Hsw Hz1 Hz12) as Hnw.
  pose proof (shrink_antitone (sHeight r) _ _ Hsh Hz1 Hz12) as Hnh.
  set (w1 := sWidth r / zoom (kenBurns s) p1) in *.
  set (w2 := sWidth r / zoom (kenBurns s) p2) in *.
  set (h1 := sHeight r / zoom (kenBurns s) p1) in *.
  set (h2 := sHeight r / zoom (kenBurns s) p2) in *.
  assert (E1 : (sWidth r - w1) / 2 == (1 # 2) * (sWidth r - w1)) by field.
  assert (E2 : (sWidth r - w2) / 2 == (1 # 2) * (sWidth r - w2)) by field.
  assert (E3 : (sHeight r - h1) / 2 == (1 # 2) * (sHeight r - h1)) by field.
  assert (E4 : (sHeight r - h2) / 2 == (1 # 2) * (sHeight r - h2)) by field.
  rewrite E1, E2, E3, E4. repeat split; lra.
Qed.

Lemma centered_zoom_nested_witness :
  sx (applyKenBurnsAndDraw (Examples.photo "a" 1920 1080)
        Examples.defaultSettings (1 # 4) 1280 720)
  <= sx (applyKenBurnsAndDraw (Examples.photo "a" 1920 1080)
           Examples.defaultSettings (3 # 4) 1280 720).
Proof.
  apply (centered_zoom_nested (Examples.photo "a" 1920 1080)
           Examples.defaultSettings (1 # 4) (3 # 4) 1280 720).
  - reflexivity.
  - reflexivity.
  - reflexivity.
  - reflexivity.
  - discriminate.
  - discriminate.
  - discriminate.
  - reflexivity.
Defined.

(** X14.  The four pans are translations of the centred zoom by
    [0.1 * sWidth * progress] (a tenth of the fitted source WIDTH on
    both axes): 'pan-left' and 'pan-right' move the source rectangle
    by that amount to the left and to the right and leave its vertical
    position alone, 'pan-up' and 'pan-down' move it up and down and
    leave its horizontal position alone; the size is the one of the
    centred zoom. *)
Theorem pans_translate_centered_zoom (img : UploadedImage)
    (D T zf w h : Q) (fit : ImageFit) (p : Q) :
  let s := fun d => mkEffectSettings D T (mkKenBurns true zf d) w h fit in
  let a := fun d => applyKenBurnsAndDraw img (s d) p w h in
  let shift :=
    (1 # 10) * sWidth (fitRect (width img) (height img) fit w h) * p in
  sx (a pan_left) == sx (a zoom_in) - shift
  /\ sx (a pan_right) == sx (a zoom_in) + shift
  /\ sy (a pan_up) == sy (a zoom_in) - shift
  /\ sy (a pan_down) == sy (a zoom_in) + shift
  /\ sy (a pan_left) == sy (a zoom_in) /\ sy (a pan_right) == sy (a zoom_in)
  /\ sx (a pan_up) == sx (a zoom_in) /\ sx (a pan_down) == sx (a zoom_in)
  /\ (forall d, sWidth (a d) = sWidth (a zoom_in)
                /\ sHeight (a d) = sHeight (a zoom_in)).
Proof.
  intros s a shift. subst s a shift.
  unfold applyKenBurnsAndDraw, kenBurnsRect.
  cbn [kenBurns enabled imageFit sx sy sWidth sHeight panDirection].
  unfold offsetX, offsetY, maxPanOffset.
  cbn [panDirection directional PanDirection_eqb negb andb].
  cbv zeta.
  unfold zoom. cbn [zoomFactor].
  do 8 (split; [ring|]).
  intro d. split; reflexivity.
Qed.

(** X15.  With the 'contain' fit and a zoom factor of at most [1.2],
    'pan-left' reads left of the image and 'pan-right' right of it on
    every frame after the first: the source rectangle is not clamped
    to the image. *)
Theorem contain_pan_leaves_image (img : UploadedImage)
    (D T zf w h p : Q) :
  0 < width img -> 0 < height img -> 0 < w -> 0 < h ->
  1 <= zf -> zf <= 12 # 10 -> 0 < p -> p <= 1 ->
  let s := fun d => mkEffectSettings D T (mkKenBurns true zf d) w h contain in
  sx (applyKenBurnsAndDraw img (s pan_left) p w h) < 0
  /\ width img
     < sx (applyKenBurnsAndDraw img (s pan_right) p w h)
       + sWidth (applyKenBurnsAndDraw img (s pan_right) p w h)
  /\ ~ sourceInImage img (applyKenBurnsAndDraw img (s pan_left) p w h)
  /\ ~ sourceInImage img (applyKenBurnsAndDraw img (s pan_right) p w h).
Proof.
  intros Hw Hh Hcw Hch Hz1 Hz2 Hp0 Hp1 s. subst s.
  assert (Esx : sx (fitRect (width img) (height img) contain w h) = 0).
  { unfold fitRect.
    destruct (Num.gtb (width img / height img) (w / h)); reflexivity. }
  assert (Esw : sWidth (fitRect (width img) (height img) contain w h)
                = width img).
  { unfold fitRect.
    destruct (Num.gtb (width img / height img) (w / h)); reflexivity. }
  assert (Hl : sx (applyKenBurnsAndDraw img
                     (mkEffectSettings D T (mkKenBurns true zf pan_left)
                        w h contain) p w h) < 0
               /\ width img
                  < sx (applyKenBurnsAndDraw img
                          (mkEffectSettings D T (mkKenBurns true zf pan_right)
                             w h contain) p w h)
                    + sWidth (applyKenBurnsAndDraw img
                                (mkEffectSettings D T
                                   (mkKenBurns true zf pan_right)
                                   w h contain) p w h)).
  { unfold applyKenBurnsAndDraw, kenBurnsRect.
    cbn [kenBurns enabled imageFit sx sy sWidth sHeight panDirection].
    unfold offsetX, maxPanOffset.
    cbn [panDirection directional PanDirection_eqb negb andb]. cbv zeta.
    rewrite Esx, Esw. unfold zoom. cbn [zoomFactor].
    set (W := width img) in *. set (z := 1 + (zf - 1) * p).
    assert (Hzge : 1 <= z) by (unfold z; nra).
    assert (En : W / z * z == W) by (field; lra).
    destruct (GeometryProps.shrink_bounds W z ltac:(lra) Hzge) as [Hn0 Hn1].
    set (n := W / z) in *.
    assert (Ehalf : (W - n) / 2 == (1 # 2) * (W - n)) by field.
    rewrite Ehalf.
    assert (Hkey : W * (1 - (2 # 10) * p) < n).
    { apply Qnot_le_lt. intro Hc.
      assert (Hprod : n * z <= W * (1 - (2 # 10) * p) * z) by nra.
      assert (Hpp : 0 < p * p) by (apply Qmult_lt_0_compat; assumption).
      assert (Hgap : 0 < ((12 # 10) - zf) * p
                         + (2 # 10) * ((zf - 1) * (p * p))).
      { destruct (Qlt_le_dec zf (12 # 10)) as [Hlt|Hge].
        - assert (0 < ((12 # 10) - zf) * p)
            by (apply Qmult_lt_0_compat; lra).
          assert (0 <= (zf - 1) * (p * p))
            by (apply Qmult_le_0_compat; lra).
          lra.
        - assert (E : zf == 12 # 10) by lra. rewrite E.
          ring_simplify. lra. }
      assert (Ez : (1 - (2 # 10) * p) * z
                   == 1 - (((12 # 10) - zf) * p
                           + (2 # 10) * ((zf - 1) * (p * p))))
        by (unfold z; ring).
      assert (Hlt1 : (1 - (2 # 10) * p) * z < 1) by lra.
      assert (Hwz : W * ((1 - (2 # 10) * p) * z) < W * 1)
        by (apply Qmult_lt_l; lra).
      lra. }
    split; lra. }
  destruct Hl as [Hleft Hright].
  split; [exact Hleft|]. split; [exact Hright|]. split.
  - intros (H0 & _). lra.
  - intros (_ & _ & H1 & _). lra.
Qed.

Lemma contain_pan_leaves_image_witness :
  sx (applyKenBurnsAndDraw (Examples.photo "c" 1080 1920)
        (mkEffectSettings 5 1 (mkKenBurns true (115 # 100) pan_left)
           1280 720 contain) (1 # 2) 1280 720) < 0.
Proof.
  apply (contain_pan_leaves_image (Examples.photo "c" 1080 1920)
           5 1 (115 # 100) 1280 720 (1 # 2)).
  - reflexivity.
  - reflexivity.
  - reflexivity.
  - reflexivity.
  - discriminate.
  - discriminate.
  - reflexivity.
  - discriminate.
Defined.

End KenBurnsMotion.

(** ** Further properties of the frame scheduler *)

Module SchedulerRun.

Import Scheduler.

Section WithInputs.

Variable images : list UploadedImage.
Variable settings : EffectSettings.

Hypothesis some_image : (0 < List.length images)%nat.

(** The session after a callback that paints. *)
Lemma drawFrame_painted (timestamp : Q) (st : Session) :
  recorder st = Some recording ->
  overallTime st / 1000 < totalDuration images settings ->
  exists (idx : Z) (tm : Q) (ops : list Compositor.CanvasOp),
    Timeline.resolve settings (List.length images) (overallTime st / 1000)
    = Timeline.FrameAt idx tm
    /\ (0 <= idx < Z.of_nat (List.length images))%Z
    /\ drawFrame images settings timestamp st
       = mkSession (overallTime st + frameDuration)
           (if Num.ltb (overallTime st + frameDuration)
                       (totalDuration images settings * 1000)
            then Some recording else Some inactive)
           (Num.ltb (overallTime st + frameDuration)
                    (totalDuration images settings * 1000))
           (ops :: frames st)
           (mkProgress
              (Num.min 100
                 ((overallTime st + frameDuration)
                  / (totalDuration images settings * 1000) * 100))
              (EncodingFrame (idx + 1) (List.length images))).
Proof using some_image.
  intros Hrec Ht.
  destruct (SchedulerFacts.resolve_before_end images settings _ Ht)
    as (idx & tm & Hres).
  destruct (SchedulerFacts.compose_resolved images settings some_image
              _ _ _ Hres) as [ops Hops].
  exists idx, tm, ops. split; [exact Hres|]. split.
  - apply (SchedulerFacts.resolve_index_range images settings some_image
             _ _ _ Hres).
  - unfold drawFrame. rewrite Hrec, Hres, Hops. cbv zeta.
    destruct (Num.ltb (overallTime st + frameDuration)
                      (totalDuration images settings * 1000));
      reflexivity.
Qed.

End WithInputs.

(** X18.  On every callback that paints, the reported percentage is in
    [(0, 100]], it is [100] exactly when that callback stops the
    recorder, and the task names an image number between [1] and the
    number of images. *)
Theorem progress_report (images : list UploadedImage)
    (settings : EffectSettings) (timestamp : Q) (st : Session) :
  (0 < List.length images)%nat ->
  recorder st = Some recording ->
  0 <= overallTime st ->
  overallTime st / 1000 < totalDuration images settings ->
  0 < percentage (progress (drawFrame images settings timestamp st)) <= 100
  /\ (recorder (drawFrame images settings timestamp st) = Some inactive
      <-> percentage (progress (drawFrame images settings timestamp st))
          == 100)
  /\ exists n : Z,
       currentTask (progress (drawFrame images settings timestamp st))
       = EncodingFrame n (List.length images)
       /\ (1 <= n <= Z.of_nat (List.length images))%Z.
Proof.
  intros Hlen Hrec Hot Ht.
  destruct (drawFrame_painted images settings Hlen timestamp st Hrec Ht)
    as (idx & tm & ops & _ & Hidx & ->).
  cbn [progress percentage currentTask recorder].
  assert (Hf : 0 < frameDuration) by reflexivity.
  assert (Htot : 0 < totalDuration images settings).
  { apply Qle_lt_trans with (overallTime st / 1000); [|assumption].
    apply Qle_shift_div_l; [reflexivity | lra]. }
  set (ot := overallTime st + frameDuration) in *.
  set (tot := totalDuration images settings * 1000) in *.
  assert (Htot' : 0 < tot) by (unfold tot; lra).
  assert (Hot' : 0 < ot) by (unfold ot; lra).
  assert (Eq : ot / tot * tot == ot) by (field; lra).
  assert (Hq : 0 < ot / tot) by (apply Qlt_shift_div_l; lra).
  destruct (Num.ltb ot tot) eqn:E.
  - apply NumFacts.ltb_lt in E.
    assert (Hq1 : ot / tot < 1) by (apply Qlt_shift_div_r; lra).
    destruct (NumFacts.min_spec 100 (ot / tot * 100))
      as [[Hle _]|[_ ->]]; [exfalso; lra|].
    split; [split; lra|]. split.
    + split; [discriminate | intro Hc; exfalso; lra].
    + exists (idx + 1)%Z. split; [reflexivity | lia].
  - apply NumFacts.ltb_ge in E.
    assert (Hq1 : 1 <= ot / tot) by (apply Qle_shift_div_l; lra).
    destruct (NumFacts.min_spec 100 (ot / tot * 100))
      as [[_ ->]|[Hlt _]]; [|exfalso; lra].
    split; [split; [reflexivity | discriminate]|]. split.
    + split; reflexivity.
    + exists (idx + 1)%Z. split; [reflexivity | lia].
Qed.

Lemma progress_report_witness :
  0 < percentage
        (progress (drawFrame Examples.threePhotos Examples.defaultSettings
                     0 started)) <= 100.
Proof.
  apply (progress_report Examples.threePhotos Examples.defaultSettings
           0 started).
  - simpl. lia.
  - reflexivity.
  - discriminate.
  - reflexivity.
Defined.

(** X19.  Once the recorder is missing or not recording (after the
    last frame, after [cleanup], after a recorder error), callbacks
    change nothing: no frame is painted, the clock and the progress
    stay, and no further callback is requested. *)
Theorem callbacks_idle_when_not_recording (images : list UploadedImage)
    (settings : EffectSettings) (fuel : nat) (clock : nat -> Q) (j : nat)
    (st : Session) :
  recorder st <> Some recording ->
  overallTime (run images settings fuel clock j st) = overallTime st
  /\ frames (run images settings fuel clock j st) = frames st
  /\ recorder (run images settings fuel clock j st) = recorder st
  /\ progress (run images settings fuel clock j st) = progress st
  /\ ((0 < fuel)%nat ->
      framePending (run images settings fuel clock j st) = false).
Proof.
  intro Hrec.
  assert (Hd : forall ts,
             drawFrame images settings ts st
             = mkSession (overallTime st) (recorder st) false
                         (frames st) (progress st)).
  { intro ts. unfold drawFrame.
    destruct (recorder st) as [[| |]|]; try reflexivity. congruence. }
  destruct fuel as [|fuel].
  - simpl. repeat split; try reflexivity. intro; lia.
  - simpl. destruct (framePending st) eqn:Ep.
    + rewrite Hd.
      assert (Er : run images settings fuel clock (S j)
                     (mkSession (overallTime st) (recorder st) false
                                (frames st) (progress st))
                   = mkSession (overallTime st) (recorder st) false
                               (frames st) (progress st))
        by (destruct fuel; reflexivity).
      rewrite Er. repeat split; reflexivity.
    + repeat split; try reflexivity. intros _. exact Ep.
Qed.

Lemma callbacks_idle_when_not_recording_witness :
  frames (run Examples.threePhotos Examples.defaultSettings 5
            (fun _ => 0) 0
            (mkSession 100 (Some inactive) true [] (mkProgress 1 Idle)))
  = [].
Proof.
  apply (callbacks_idle_when_not_recording Examples.threePhotos
           Examples.defaultSettings 5 (fun _ => 0) 0
           (mkSession 100 (Some inactive) true [] (mkProgress 1 Idle))).
  discriminate.
Defined.

End SchedulerRun.

(** ** Further properties of [generateVideo] *)

Module GeneratorOutcomes.

Import Generator.

(** Case analysis for statements on the finite set of host answers. *)
Ltac outcome_cases :=
  repeat match goal with
         | |- _ /\ _ => split
         | |- _ <-> _ => split
         | |- ~ _ => intro
         | |- _ -> _ => intro
         | H : _ \/ _ |- _ => destruct H
         | H : _ /\ _ |- _ => destruct H
         end;
  first [ discriminate | congruence | reflexivity
        | left; reflexivity | right; eexists; reflexivity
        | left; congruence | right; congruence | idtac ].

(** X20.  [generateVideo] returns at a precondition check exactly when
    there is no image or no [MediaRecorder]; it then only reports an
    error.  In every other case it starts by tearing down the previous
    session and setting the generating state.  An error is reported
    exactly in the rejected and the aborted outcomes. *)
Theorem rejection_characterised (b : Browser) (images : list UploadedImage)
    (s : EffectSettings) :
  (snd (generateVideo b images s) = Rejected
   <-> images = [] \/ mediaRecorderDefined b = false)
  /\ (snd (generateVideo b images s) = Rejected
      \/ exists rest,
           fst (generateVideo b images s)
           = Cleanup :: SetIsGenerating true :: SetError None :: rest)
  /\ (existsb reportsError (fst (generateVideo b images s)) = true
      <-> snd (generateVideo b images s) = Rejected
          \/ snd (generateVideo b images s) = Aborted)
  /\ (existsb allocates (fst (generateVideo b images s)) = true
      <-> snd (generateVideo b images s) <> Rejected).
Proof.
  unfold generateVideo.
  destruct images as [|img rest].
  - cbn. split; [|split; [|split]].
    + outcome_cases.
    + left. reflexivity.
    + outcome_cases.
    + outcome_cases.
  - cbn [List.length Nat.eqb].
    destruct b as [mr mp4 webm ctx throws loads].
    cbn [mediaRecorderDefined contextAvailable recorderInitThrows imagesLoad].
    destruct mr, ctx, throws, loads; cbn;
      (split;
       [ outcome_cases
       | split;
         [ first [left; reflexivity | right; eexists; reflexivity]
         | split; outcome_cases ] ]).
Qed.

(** X21.  First generation ([videoUrl] is null, so the [cleanup()]
    that [generateVideo] calls resets no state and no effect teardown
    runs during the [await]).  What is left of the generating state, by
    outcome: never set when rejected, reset to [false] when aborted,
    left [true] when the session runs, and also when an image fails to
    load.  In that last case the recorder has been started, no error is
    reported and no frame is requested. *)
Theorem generating_state_by_outcome (videoUrl : option string)
    (r : Hook.Refs) (b : Browser) (images : list UploadedImage)
    (s : EffectSettings) :
  videoUrl = None ->
  ~ In Hook.SetVideoUrlNull (snd (Hook.cleanup videoUrl r))
  /\ isGeneratingAfter (fst (generateVideo b images s))
     = match snd (generateVideo b images s) with
       | Rejected => None
       | Aborted => Some false
       | LoadRejected => Some true
       | Running _ => Some true
       end
  /\ (snd (generateVideo b images s) = LoadRejected
      <-> images <> [] /\ mediaRecorderDefined b = true
          /\ contextAvailable b = true /\ recorderInitThrows b = false
          /\ imagesLoad b = false)
  /\ (snd (generateVideo b images s) = LoadRejected ->
      In RecorderStart (fst (generateVideo b images s))
      /\ existsb reportsError (fst (generateVideo b images s)) = false
      /\ ~ In RequestAnimationFrame (fst (generateVideo b images s))).
Proof.
  intros ->. split.
  { unfold Hook.cleanup. cbn [snd]. rewrite app_nil_r, in_app_iff.
    destruct (Hook.animationFrameIdRef r),
             (Hook.mediaRecorderRef r) as [[| |]|]; cbn;
      intuition discriminate. }
  unfold generateVideo.
  destruct images as [|img rest].
  - cbn. split; [reflexivity|]. split; outcome_cases.
  - cbn [List.length Nat.eqb].
    destruct b as [mr mp4 webm ctx throws loads].
    cbn [mediaRecorderDefined contextAvailable recorderInitThrows imagesLoad].
    destruct mr, ctx, throws, loads; cbn;
      (split; [reflexivity|]); (split; [outcome_cases|]);
      try discriminate.
    intros _. split; [tauto|]. split; [reflexivity|].
    intro H. repeat (destruct H as [H|H]; [discriminate|]). exact H.
Qed.

Lemma generating_state_by_outcome_witness :
  isGeneratingAfter
    (fst (generateVideo (mkBrowser true true true true false false)
            Examples.threePhotos Examples.defaultSettings))
  = Some true.
Proof.
  destruct (generating_state_by_outcome None
              (Hook.mkRefs None None [])
              (mkBrowser true true true true false false)
              Examples.threePhotos Examples.defaultSettings eq_refl)
    as (_ & H & _).
  exact H.
Defined.

End GeneratorOutcomes.

(** ** [cleanup] and the recorded chunks *)

Module HookProps.

Import Hook.

(** X22.  [cleanup] stops the recorder exactly when it is recording and
    cancels the pending frame request if there is one; a second call
    finds the refs cleared, so it leaves them as they are and neither
    stops a recorder nor cancels a frame again; once the video URL is
    reset it makes no call at all. *)
Theorem cleanup_idempotent (videoUrl : option string) (r : Refs) :
  (In RecorderStop (snd (cleanup videoUrl r))
   <-> mediaRecorderRef r = Some Scheduler.recording)
  /\ (forall id, In (CancelAnimationFrame id) (snd (cleanup videoUrl r))
                 <-> animationFrameIdRef r = Some id)
  /\ fst (cleanup videoUrl (fst (cleanup videoUrl r)))
     = fst (cleanup videoUrl r)
  /\ ~ In RecorderStop (snd (cleanup videoUrl (fst (cleanup videoUrl r))))
  /\ (forall id,
        ~ In (CancelAnimationFrame id)
             (snd (cleanup videoUrl (fst (cleanup videoUrl r)))))
  /\ cleanup None (fst (cleanup videoUrl r)) = (fst (cleanup videoUrl r), []).
Proof.
  unfold cleanup. cbn [fst snd animationFrameIdRef mediaRecorderRef app].
  split; [|split; [|split; [|split; [|split]]]].
  - rewrite !in_app_iff.
    destruct (animationFrameIdRef r), (mediaRecorderRef r) as [[| |]|],
      videoUrl as [[|c u]|]; cbn;
      intuition (try discriminate; try congruence).
  - intro i0. rewrite !in_app_iff.
    destruct (animationFrameIdRef r) as [i|], (mediaRecorderRef r) as [[| |]|],
      videoUrl as [[|c u]|]; cbn;
      intuition (try discriminate; try congruence).
  - reflexivity.
  - destruct videoUrl as [[|c u]|]; cbn;
      intuition (try discriminate; try congruence).
  - intro i0. destruct videoUrl as [[|c u]|]; cbn;
      intuition (try discriminate; try congruence).
  - reflexivity.
Qed.

(** X23.  The recorded chunks never hold an empty blob: whatever
    sequence of data events and cleanups happens, every kept chunk has
    a positive size, and an empty blob changes nothing. *)
Theorem chunks_stay_positive (events : list Event) (r : Refs) :
  Forall (fun size => (0 < size)%N) (recordedChunksRef r) ->
  Forall (fun size => (0 < size)%N)
         (recordedChunksRef (fold_left handle events r))
  /\ ondataavailable 0 r = r.
Proof.
  intro H. split; [|reflexivity].
  revert r H. induction events as [|e events IH]; intros r H; [exact H|].
  simpl. apply IH. destruct e as [size|url].
  - unfold handle, ondataavailable.
    destruct (N.ltb_spec 0 size) as [Hpos|_]; [|exact H].
    cbn [recordedChunksRef]. apply Forall_app. split; [exact H|].
    constructor; [exact Hpos | constructor].
  - cbn. constructor.
Qed.

Lemma chunks_stay_positive_witness :
  Forall (fun size => (0 < size)%N)
         (recordedChunksRef
            (fold_left handle
               [DataAvailable 512; DataAvailable 0; CleanupCalled None;
                DataAvailable 7]
               (mkRefs None (Some Scheduler.recording) []))).
Proof.
  apply (chunks_stay_positive
           [DataAvailable 512; DataAvailable 0; CleanupCalled None;
            DataAvailable 7]
           (mkRefs None (Some Scheduler.recording) [])).
  constructor.
Defined.

End HookProps.

(** ** The application's handlers *)

Module AppProps.

Lemma nonNull_length (l : list (option UploadedImage)) :
  (List.length (App.nonNull l) <= List.length l)%nat.
Proof.
  induction l as [|[img|] l IH]; simpl; lia.
Qed.

Lemma loadFile_accepts (f : App.File) (img : UploadedImage) :
  fst (App.loadFile f) = Some img ->
  (App.size f <= 5 * 1024 * 1024)%N
  /\ String.prefix "image/" (App.type f) = true
  /\ exists url w h now,
       App.read f = Some url /\ App.decoded f = Some (w, h, now)
       /\ img = mkUploadedImage (App.name f ++ "-" ++ now)%string url w h.
Proof.
  unfold App.loadFile, App.MAX_FILE_SIZE_MB.
  destruct (N.ltb_spec (5 * 1024 * 1024) (App.size f)) as [|Hle];
    [discriminate|].
  destruct (String.prefix "image/" (App.type f)); [|discriminate].
  destruct (App.read f) as [url|]; [|discriminate].
  destruct (App.decoded f) as [[[w h] now]|]; [|discriminate].
  cbn. intro H. inversion H; subst.
  split; [exact Hle|]. split; [reflexivity|].
  exists url, w, h, now. repeat split; reflexivity.
Qed.

Lemma nonNull_In (l : list (option UploadedImage)) (img : UploadedImage) :
  In img (App.nonNull l) <-> In (Some img) l.
Proof.
  induction l as [|[x|] l IH]; simpl.
  - tauto.
  - rewrite IH. split; intros [H|H]; auto; left; congruence.
  - rewrite IH. split; [auto | intros [H|H]; [discriminate | exact H]].
Qed.

(** X24.  Uploading never takes the list past [MAX_IMAGES = 20]: when
    the selection would, nothing is added and an error is reported.
    Otherwise the previous images are kept in place and the new ones
    are appended, and each new image comes from a selected file of at
    most 5 MB whose type starts with [image/], with the id
    [<file name>-<time>]. *)
Theorem upload_respects_limits (images : list UploadedImage)
    (files : list App.File) :
  (List.length images <= App.MAX_IMAGES)%nat ->
  (List.length (fst (App.handleFileChange images files))
   <= App.MAX_IMAGES)%nat
  /\ ((App.MAX_IMAGES < List.length images + List.length files)%nat ->
      App.handleFileChange images files = (images, [App.TooManyImages]))
  /\ exists added,
       fst (App.handleFileChange images files) = images ++ added
       /\ (List.length added <= List.length files)%nat
       /\ forall img, In img added ->
            exists f now,
              In f files
              /\ (App.size f <= 5 * 1024 * 1024)%N
              /\ String.prefix "image/" (App.type f) = true
              /\ id img = (App.name f ++ "-" ++ now)%string.
Proof.
  intro Hlen. unfold App.handleFileChange.
  destruct (Nat.ltb_spec App.MAX_IMAGES
              (List.length images + List.length files)) as [Hover|Hfits].
  - cbn [fst]. split; [exact Hlen|]. split; [reflexivity|].
    exists []. rewrite app_nil_r. split; [reflexivity|].
    split; [simpl; lia|]. intros img [].
  - cbv zeta. cbn [fst].
    pose proof (nonNull_length (map fst (map App.loadFile files))) as Hn.
    rewrite !length_map in Hn.
    split; [rewrite length_app; lia|]. split; [intro; lia|].
    exists (App.nonNull (map fst (map App.loadFile files))).
    split; [reflexivity|]. split; [exact Hn|].
    intros img Hin. apply nonNull_In in Hin.
    rewrite map_map in Hin. apply in_map_iff in Hin.
    destruct Hin as (f & Hf & Hinf).
    destruct (loadFile_accepts f img Hf)
      as (Hsize & Htype & url & w & h & now & _ & _ & ->).
    exists f, now. repeat split; assumption || reflexivity.
Qed.

Lemma upload_respects_limits_witness :
  (List.length
     (fst (App.handleFileChange Examples.threePhotos
             [App.mkFile "d.png" 1000 "image/png" (Some "data:"%string)
                (Some (800%Q, 600%Q, "1700000000000"%string));
              App.mkFile "e.txt" 10 "text/plain" (Some "data:"%string) None]))
   <= App.MAX_IMAGES)%nat.
Proof.
  apply (upload_respects_limits Examples.threePhotos
           [App.mkFile "d.png" 1000 "image/png" (Some "data:"%string)
              (Some (800%Q, 600%Q, "1700000000000"%string));
            App.mkFile "e.txt" 10 "text/plain" (Some "data:"%string) None]).
  apply Nat.leb_le. reflexivity.
Defined.

(** X25.  Removing an image by id removes every image with that id
    and no other, keeps the order of the rest, and changes nothing when
    no image has the id; in particular an image whose id is unique is
    the only element deleted. *)
Theorem removeImage_spec (id0 : string) (images : list UploadedImage) :
  (forall img, In img (App.removeImage id0 images)
               <-> In img images /\ id img <> id0)
  /\ (Forall (fun img => id img <> id0) images ->
      App.removeImage id0 images = images)
  /\ App.removeImage id0 (App.removeImage id0 images)
     = App.removeImage id0 images
  /\ (forall before x after,
        images = before ++ x :: after -> id x = id0 ->
        Forall (fun img => id img <> id0) before ->
        Forall (fun img => id img <> id0) after ->
        App.removeImage id0 images = before ++ after).
Proof.
  assert (Hkeep : forall l, Forall (fun img => id img <> id0) l ->
                            App.removeImage id0 l = l).
  { induction l as [|y l IH]; intro H; [reflexivity|].
    inversion H; subst. unfold App.removeImage in *. simpl.
    destruct (String.eqb_spec (id y) id0); [contradiction|].
    simpl. f_equal. apply IH. assumption. }
  split; [|split; [exact (Hkeep images)|split]].
  - intro img. unfold App.removeImage. rewrite filter_In.
    rewrite negb_true_iff.
    destruct (String.eqb_spec (id img) id0); split; intros [? ?];
      split; congruence || assumption.
  - apply Hkeep. apply Forall_forall. intros img Hin.
    unfold App.removeImage in Hin. apply filter_In in Hin.
    destruct Hin as [_ Hin]. rewrite negb_true_iff in Hin.
    destruct (String.eqb_spec (id img) id0); [discriminate | assumption].
  - intros before x after -> Hx Hb Ha.
    unfold App.removeImage. rewrite filter_app. simpl.
    destruct (String.eqb_spec (id x) id0); [|contradiction]. simpl.
    fold (App.removeImage id0 before). fold (App.removeImage id0 after).
    rewrite (Hkeep before Hb), (Hkeep after Ha). reflexivity.
Qed.

(** X26.  The button never reaches the hook's own no-images check:
    with no image the application reports its own error and does not
    call [generateVideo]; with an image it calls it, and the hook
    rejects only for a missing [MediaRecorder]. *)
Theorem generate_button_guard (b : Generator.Browser)
    (images : list UploadedImage) (s : EffectSettings) :
  (images = [] ->
   App.handleGenerateVideo b images s = (Some App.PleaseUpload, None))
  /\ (images <> [] ->
      App.handleGenerateVideo b images s
      = (None, Some (Generator.generateVideo b images s))
      /\ ~ In (Generator.SetError
                 (Some (Generator.ErrorText "No images selected.")))
              (fst (Generator.generateVideo b images s))
      /\ (snd (Generator.generateVideo b images s) = Generator.Rejected
          <-> Generator.mediaRecorderDefined b = false)).
Proof.
  split.
  - intros ->. reflexivity.
  - intro Hne. destruct images as [|img rest]; [congruence|].
    split; [reflexivity|].
    unfold Generator.generateVideo. cbn [List.length Nat.eqb].
    destruct b as [mr mp4 webm ctx throws loads].
    cbn [Generator.mediaRecorderDefined Generator.contextAvailable
         Generator.recorderInitThrows Generator.imagesLoad].
    destruct mr, ctx, throws, loads; cbn; split;
      try (intro H; repeat (destruct H as [H|H]; [discriminate|]); exact H);
      split; intro; discriminate || reflexivity.
Qed.

Lemma doubleQuote_code : Ascii.nat_of_ascii App.doubleQuote = 34%nat.
Proof. reflexivity. Qed.

(** X27.  The extension of the download link follows the container
    the recorder was asked for: [mp4] exactly when [MediaRecorder]
    reports support for the MP4 type, [webm] otherwise, also when WebM
    is not reported as supported. *)
Theorem download_extension_matches_recorder (b : Generator.Browser) :
  App.downloadExtension (App.mimeString (Generator.getSupportedMimeType b))
  = (if Generator.mediaRecorderDefined b && Generator.supportsMp4 b
     then "mp4" else "webm")%string
  /\ (Generator.getSupportedMimeType b = Generator.MIME_TYPE_MP4
      <-> Generator.mediaRecorderDefined b = true
          /\ Generator.supportsMp4 b = true).
Proof.
  unfold Generator.getSupportedMimeType.
  destruct b as [mr mp4 webm ctx throws loads].
  cbn [Generator.mediaRecorderDefined Generator.supportsMp4
       Generator.supportsWebm].
  destruct mr, mp4, webm; cbn [andb]; split;
    try (vm_compute; reflexivity);
    split; intro H; try discriminate; try (split; reflexivity);
    destruct H; discriminate.
Qed.

End AppProps.

(** ** Take-over of an image *)

Module RunEnd.

Import Scheduler.



End RunEnd.
